(** * 3DR Radio status plugin (mavros, [src/plugins/3dr_radio.cpp])

    A shallow embedding of the two classes of the plugin,
    [TDRRadioStatus] (the diagnostic task holding the last radio status)
    and [TDRRadioPlugin] (the MAVLink message handler), followed by the
    properties of the link-quality tracker.

    Integers are [Z] restricted to their C width, [float]/[double] values are
    IEEE 754 binary32/binary64 numbers given by the Standard Library's
    [SpecFloat], text is [string]. *)

From Stdlib Require Import QArith Qabs Qround.
From Stdlib Require Import ZArith Lia Bool String Ascii List DecimalString.
From Stdlib Require Import Floats.SpecFloat.
From stdpp Require Import base list.

Local Open Scope string_scope.
Local Open Scope Z_scope.

(** ** C arithmetic used by [TDRRadioStatus::run] *)

Module CFloat.

(** [double]: IEEE 754 binary64. *)
Definition dprec : Z := 53.
Definition demax : Z := 1024.
(** [float]: IEEE 754 binary32. *)
Definition fprec : Z := 24.
Definition femax : Z := 128.

(** Conversion of an [int] to [double] (exact below 2^53). *)
Definition double_of_int (n : Z) : spec_float :=
  binary_normalize dprec demax n 0 false.

Definition ddiv : spec_float -> spec_float -> spec_float := SFdiv dprec demax.
Definition dsub : spec_float -> spec_float -> spec_float := SFsub dprec demax.

(** A decimal literal [n / 10^k] of type [double]: the decimal value
    rounded to the nearest binary64 number. *)
Definition double_literal (n : Z) (k : nat) : spec_float :=
  ddiv (double_of_int n) (double_of_int (10 ^ Z.of_nat k)).

(** The literal [1.9]. *)
Definition lit_1_9 : spec_float := double_literal 19 1.

(** Conversion [double -> float], done by the initialisation of a
    [float] variable with a [double] expression. *)
Definition float_of_double (x : spec_float) : spec_float :=
  match x with
  | S754_finite s m e => binary_normalize fprec femax (cond_Zopp s (Zpos m)) e s
  | _ => x
  end.

(** [x * 10] as an exact integer part and a rounding position, for a
    non-negative binary number [m * 2^e]: the tenths of [|x|] rounded to
    nearest, ties to even, as [printf] rounds the exact binary value. *)
Definition round_tenths (m : positive) (e : Z) : Z :=
  let n := Zpos m * 10 in
  if 0 <=? e then n * 2 ^ e
  else
    let d := 2 ^ (- e) in
    let q := n / d in
    let r := n mod d in
    match 2 * r ?= d with
    | Lt => q
    | Eq => if Z.even q then q else q + 1
    | Gt => q + 1
    end.

Definition string_of_nonneg (n : Z) : string :=
  NilZero.string_of_uint (N.to_uint (Z.to_N n)).

Definition sign_string (s : bool) : string := if s then "-" else "".

(** [printf("%.1f", x)]: the [float] argument is promoted to [double]
    without change of value. *)
Definition format_1f (x : spec_float) : string :=
  match x with
  | S754_zero s => (sign_string s ++ "0.0")%string
  | S754_infinity s => (sign_string s ++ "inf")%string
  | S754_nan => "nan"
  | S754_finite s m e =>
      let t := round_tenths m e in
      (sign_string s ++ string_of_nonneg (t / 10) ++ "."
         ++ string_of_nonneg (t mod 10))%string
  end.

(** [printf("%u", n)] for an unsigned value. *)
Definition format_u (n : Z) : string := string_of_nonneg n.

End CFloat.


(** ** MAVLink payloads

    [mavlink_radio_status_t] (RADIO_STATUS) and [mavlink_radio_t] (RADIO, the
    message of earlier modems) are generated MAVLink structures with the same
    seven members: five [uint8_t] and two [uint16_t]. *)

Record mavlink_radio_status_t := {
  rs_rssi : Z;
  rs_remrssi : Z;
  rs_txbuf : Z;
  rs_noise : Z;
  rs_remnoise : Z;
  rs_rxerrors : Z;
  rs_fixed : Z
}.

Record mavlink_radio_t := {
  r_rssi : Z;
  r_remrssi : Z;
  r_txbuf : Z;
  r_noise : Z;
  r_remnoise : Z;
  r_rxerrors : Z;
  r_fixed : Z
}.

(** The members that the templates [set<msgT>] and [handle_message<msgT>]
    read through [rst.field]. *)
Class RadioFields (msgT : Type) := {
  rssi : msgT -> Z;
  remrssi : msgT -> Z;
  txbuf : msgT -> Z;
  noise : msgT -> Z;
  remnoise : msgT -> Z;
  rxerrors : msgT -> Z;
  fixed : msgT -> Z
}.

#[export] Instance radio_status_fields : RadioFields mavlink_radio_status_t := {
  rssi := rs_rssi; remrssi := rs_remrssi; txbuf := rs_txbuf; noise := rs_noise;
  remnoise := rs_remnoise; rxerrors := rs_rxerrors; fixed := rs_fixed
}.

#[export] Instance radio_fields : RadioFields mavlink_radio_t := {
  rssi := r_rssi; remrssi := r_remrssi; txbuf := r_txbuf; noise := r_noise;
  remnoise := r_remnoise; rxerrors := r_rxerrors; fixed := r_fixed
}.

Definition is_uint8 (n : Z) : bool := (0 <=? n) && (n <? 256).
Definition is_uint16 (n : Z) : bool := (0 <=? n) && (n <? 65536).

(** The values a payload can hold, by the width of its members. *)
Definition well_formed {msgT} `{RadioFields msgT} (rst : msgT) : bool :=
  is_uint8 (rssi rst) && is_uint8 (remrssi rst) && is_uint8 (txbuf rst)
  && is_uint8 (noise rst) && is_uint8 (remnoise rst)
  && is_uint16 (rxerrors rst) && is_uint16 (fixed rst).

(** ** diagnostic_updater::DiagnosticStatusWrapper

    The part of the status object that [run] writes: [summary] sets the level
    and the message, [addf] formats a value and appends a key/value pair. *)

Record DiagnosticStatusWrapper := {
  level : Z;
  message : string;
  values : list (string * string)
}.

Definition summary (lvl : Z) (msg : string) (stat : DiagnosticStatusWrapper)
  : DiagnosticStatusWrapper :=
  {| level := lvl; message := msg; values := values stat |}.

Definition addf (key value : string) (stat : DiagnosticStatusWrapper)
  : DiagnosticStatusWrapper :=
  {| level := level stat; message := message stat;
     values := values stat ++ [(key, value)] |}.

(** Levels of diagnostic_msgs/DiagnosticStatus. *)
Definition level_OK : Z := 0.
Definition level_WARN : Z := 1.
Definition level_ERROR : Z := 2.

(** ** class TDRRadioStatus *)

Record TDRRadioStatus := {
  task_name : string;
  last_rst : mavlink_radio_status_t;
  data_received : bool;
  low_rssi : Z
}.

(** [last_rst{}]: value initialisation, every member zero. *)
Definition zero_rst : mavlink_radio_status_t :=
  {| rs_rssi := 0; rs_remrssi := 0; rs_txbuf := 0; rs_noise := 0;
     rs_remnoise := 0; rs_rxerrors := 0; rs_fixed := 0 |}.

(** The constructor [TDRRadioStatus(name, _low_rssi)]. *)
Definition TDRRadioStatus_new (name : string) (_low_rssi : Z) : TDRRadioStatus :=
  {| task_name := name; last_rst := zero_rst; data_received := false;
     low_rssi := _low_rssi |}.

(** [set(rst)]: [data_received = true], then one [RST_COPY] per member. *)
Definition set {msgT} `{RadioFields msgT} (this : TDRRadioStatus) (rst : msgT)
  : TDRRadioStatus :=
  {| task_name := task_name this;
     last_rst := {| rs_rssi := rssi rst; rs_remrssi := remrssi rst;
                    rs_txbuf := txbuf rst; rs_noise := noise rst;
                    rs_remnoise := remnoise rst; rs_rxerrors := rxerrors rst;
                    rs_fixed := fixed rst |};
     data_received := true;
     low_rssi := low_rssi this |}.

(** [(raw / 1.9) - 127], evaluated in [double] and stored in a [float]. *)
Definition dbm_of_raw (raw : Z) : spec_float :=
  CFloat.float_of_double
    (CFloat.dsub (CFloat.ddiv (CFloat.double_of_int raw) CFloat.lit_1_9)
                 (CFloat.double_of_int 127)).

(** The [if]/[else if] chain that chooses the summary. *)
Definition run_summary (this : TDRRadioStatus) (stat : DiagnosticStatusWrapper)
  : DiagnosticStatusWrapper :=
  if negb (data_received this) then summary 2 "No data" stat
  else if rs_rssi (last_rst this) <? low_rssi this then summary 1 "Low RSSI" stat
  else if rs_remrssi (last_rst this) <? low_rssi this
       then summary 1 "Low remote RSSI" stat
  else summary 0 "Normal" stat.

(** [run(stat)]: the object is returned next to the status it filled, as
    [run] is not a [const] member. *)
Definition run (this : TDRRadioStatus) (stat : DiagnosticStatusWrapper)
  : TDRRadioStatus * DiagnosticStatusWrapper :=
  let stat := run_summary this stat in
  let rssi_dbm := dbm_of_raw (rs_rssi (last_rst this)) in
  let remrssi_dbm := dbm_of_raw (rs_remrssi (last_rst this)) in
  let stat := addf "RSSI" (CFloat.format_u (rs_rssi (last_rst this))) stat in
  let stat := addf "RSSI (dBm)" (CFloat.format_1f rssi_dbm) stat in
  let stat := addf "Remote RSSI" (CFloat.format_u (rs_remrssi (last_rst this))) stat in
  let stat := addf "Remote RSSI (dBm)" (CFloat.format_1f remrssi_dbm) stat in
  let stat := addf "Tx buffer (%)" (CFloat.format_u (rs_txbuf (last_rst this))) stat in
  let stat := addf "Noice level" (CFloat.format_u (rs_noise (last_rst this))) stat in
  let stat := addf "Remote noice level"
                   (CFloat.format_u (rs_remnoise (last_rst this))) stat in
  let stat := addf "Rx errors" (CFloat.format_u (rs_rxerrors (last_rst this))) stat in
  let stat := addf "Fixed" (CFloat.format_u (rs_fixed (last_rst this))) stat in
  (this, stat).

(** A status object as the diagnostic updater hands it to a task: no
    key/value pair yet. *)
Definition fresh_status : DiagnosticStatusWrapper :=
  {| level := 2; message := "No message was set"; values := [] |}.

(** One poll of the task: [run] on a fresh status object. *)
Definition render (this : TDRRadioStatus) : DiagnosticStatusWrapper :=
  snd (run this fresh_status).

(** ** class TDRRadioPlugin *)

(** [ros::Time]. *)
Record ros_Time := { sec : Z; nsec : Z }.

(** The message [mavros::RadioStatus] sent on the topic [radio_status]. *)
Record RadioStatus := {
  header_stamp : ros_Time;
  msg_rssi : Z;
  msg_remrssi : Z;
  msg_txbuf : Z;
  msg_noise : Z;
  msg_remnoise : Z;
  msg_rxerrors : Z;
  msg_fixed : Z
}.

(** What the plugin hands to its collaborators: a request to the throttled
    logger ([ROS_WARN_THROTTLE_NAMED(period, name, text)], which decides by
    its own clock whether the line is printed) and a message given to
    [status_pub.publish]. *)
Inductive ros_event :=
| EvWarnThrottle (period : Z) (name text : string)
| EvPublish (msg : RadioStatus).

(** The plugin object, with the events it has produced so far. *)
Record TDRRadioPlugin := {
  tdr_diag : TDRRadioStatus;
  has_radio_status : bool;
  ros_out : list ros_event
}.

(** The constructor: [tdr_diag("3DR Radio", 40)], [has_radio_status(false)]. *)
Definition TDRRadioPlugin_new : TDRRadioPlugin :=
  {| tdr_diag := TDRRadioStatus_new "3DR Radio" 40;
     has_radio_status := false;
     ros_out := [] |}.

Definition emit (ev : ros_event) (this : TDRRadioPlugin) : TDRRadioPlugin :=
  {| tdr_diag := tdr_diag this; has_radio_status := has_radio_status this;
     ros_out := ros_out this ++ [ev] |}.

(** Character constants of the identity test: ['3'] and ['D']. *)
Definition char_3 : Z := Z.of_nat (nat_of_ascii "3"%char).
Definition char_D : Z := Z.of_nat (nat_of_ascii "D"%char).

(** [handle_message(rst, sysid, compid)]; [now] is the value that
    [ros::Time::now()] returns for the stamp. *)
Definition handle_message {msgT} `{RadioFields msgT}
  (this : TDRRadioPlugin) (rst : msgT) (sysid compid : Z) (now : ros_Time)
  : TDRRadioPlugin :=
  let this :=
    if negb (sysid =? char_3) || negb (compid =? char_D)
    then emit (EvWarnThrottle 30 "radio" "RADIO_STATUS not from 3DR modem?") this
    else this in
  let this :=
    {| tdr_diag := set (tdr_diag this) rst;
       has_radio_status := has_radio_status this;
       ros_out := ros_out this |} in
  let msg :=
    {| header_stamp := now;
       msg_rssi := rssi rst; msg_remrssi := remrssi rst; msg_txbuf := txbuf rst;
       msg_noise := noise rst; msg_remnoise := remnoise rst;
       msg_rxerrors := rxerrors rst; msg_fixed := fixed rst |} in
  emit (EvPublish msg) this.

(** [mavlink_message_t]: the message id and the payload bytes. *)
Record mavlink_message_t := {
  msgid : Z;
  payload : list Z
}.

Section MessageRx.

(** The MAVLink dialect headers are generated code outside the plugin: the
    message ids and the two decoders are taken as they come.
    [MAVLINK_MSG_ID_RADIO] is [None] for a dialect that does not define it
    (the [#ifdef] of the source). *)
Variable MAVLINK_MSG_ID_RADIO_STATUS : Z.
Variable MAVLINK_MSG_ID_RADIO : option Z.
Variable mavlink_msg_radio_status_decode : mavlink_message_t -> mavlink_radio_status_t.
Variable mavlink_msg_radio_decode : mavlink_message_t -> mavlink_radio_t.

(** [message_rx_cb(msg, sysid, compid)]: the [switch] on [msg->msgid]. *)
Definition message_rx_cb (this : TDRRadioPlugin) (msg : mavlink_message_t)
  (sysid compid : Z) (now : ros_Time) : TDRRadioPlugin :=
  if msgid msg =? MAVLINK_MSG_ID_RADIO_STATUS then
    let rst := mavlink_msg_radio_status_decode msg in
    let this :=
      {| tdr_diag := tdr_diag this; has_radio_status := true;
         ros_out := ros_out this |} in
    handle_message this rst sysid compid now
  else
    match MAVLINK_MSG_ID_RADIO with
    | Some id_radio =>
        if msgid msg =? id_radio then
          if has_radio_status this then this
          else
            let rst := mavlink_msg_radio_decode msg in
            handle_message this rst sysid compid now
        else this
    | None => this
    end.

(** One delivery of the transport: the message, the sender's ids and the
    clock reading during the callback. *)
Record inbound := {
  in_msg : mavlink_message_t;
  in_sysid : Z;
  in_compid : Z;
  in_now : ros_Time
}.

Definition deliver (this : TDRRadioPlugin) (i : inbound) : TDRRadioPlugin :=
  message_rx_cb this (in_msg i) (in_sysid i) (in_compid i) (in_now i).

(** The plugin after a sequence of deliveries, oldest first. *)
Definition deliver_all (this : TDRRadioPlugin) (l : list inbound) : TDRRadioPlugin :=
  fold_left deliver l this.

End MessageRx.

(** ** Sequences of calls on one tracker *)

Inductive tracker_call :=
| CallSet (rst : mavlink_radio_status_t)
| CallSetLegacy (rst : mavlink_radio_t)
| CallRun (stat : DiagnosticStatusWrapper).

Definition call (this : TDRRadioStatus) (c : tracker_call) : TDRRadioStatus :=
  match c with
  | CallSet rst => set this rst
  | CallSetLegacy rst => set this rst
  | CallRun stat => fst (run this stat)
  end.

Definition calls (this : TDRRadioStatus) (l : list tracker_call) : TDRRadioStatus :=
  fold_left call l this.

Definition is_set_call (c : tracker_call) : bool :=
  match c with CallRun _ => false | _ => true end.

(** The payload of a call has values of the width of its members. *)
Definition call_well_formed (c : tracker_call) : bool :=
  match c with
  | CallSet rst => well_formed rst
  | CallSetLegacy rst => well_formed rst
  | CallRun _ => true
  end.

(** ** Concurrent callers of one tracker

    [set] and [run] as the threads of the node execute them: statement by
    statement, each between the construction of the
    [boost::recursive_mutex::scoped_lock] and the end of its scope. *)

Module Concurrent.

(** Stores into the members of the shared object. *)
Definition store_data_received (b : bool) (this : TDRRadioStatus) : TDRRadioStatus :=
  {| task_name := task_name this; last_rst := last_rst this;
     data_received := b; low_rssi := low_rssi this |}.

Definition store_last_rst (f : mavlink_radio_status_t -> mavlink_radio_status_t)
  (this : TDRRadioStatus) : TDRRadioStatus :=
  {| task_name := task_name this; last_rst := f (last_rst this);
     data_received := data_received this; low_rssi := low_rssi this |}.

Definition put_rssi (v : Z) (r : mavlink_radio_status_t) : mavlink_radio_status_t :=
  {| rs_rssi := v; rs_remrssi := rs_remrssi r; rs_txbuf := rs_txbuf r;
     rs_noise := rs_noise r; rs_remnoise := rs_remnoise r;
     rs_rxerrors := rs_rxerrors r; rs_fixed := rs_fixed r |}.
Definition put_remrssi (v : Z) (r : mavlink_radio_status_t) : mavlink_radio_status_t :=
  {| rs_rssi := rs_rssi r; rs_remrssi := v; rs_txbuf := rs_txbuf r;
     rs_noise := rs_noise r; rs_remnoise := rs_remnoise r;
     rs_rxerrors := rs_rxerrors r; rs_fixed := rs_fixed r |}.
Definition put_txbuf (v : Z) (r : mavlink_radio_status_t) : mavlink_radio_status_t :=
  {| rs_rssi := rs_rssi r; rs_remrssi := rs_remrssi r; rs_txbuf := v;
     rs_noise := rs_noise r; rs_remnoise := rs_remnoise r;
     rs_rxerrors := rs_rxerrors r; rs_fixed := rs_fixed r |}.
Definition put_noise (v : Z) (r : mavlink_radio_status_t) : mavlink_radio_status_t :=
  {| rs_rssi := rs_rssi r; rs_remrssi := rs_remrssi r; rs_txbuf := rs_txbuf r;
     rs_noise := v; rs_remnoise := rs_remnoise r;
     rs_rxerrors := rs_rxerrors r; rs_fixed := rs_fixed r |}.
Definition put_remnoise (v : Z) (r : mavlink_radio_status_t) : mavlink_radio_status_t :=
  {| rs_rssi := rs_rssi r; rs_remrssi := rs_remrssi r; rs_txbuf := rs_txbuf r;
     rs_noise := rs_noise r; rs_remnoise := v;
     rs_rxerrors := rs_rxerrors r; rs_fixed := rs_fixed r |}.
Definition put_rxerrors (v : Z) (r : mavlink_radio_status_t) : mavlink_radio_status_t :=
  {| rs_rssi := rs_rssi r; rs_remrssi := rs_remrssi r; rs_txbuf := rs_txbuf r;
     rs_noise := rs_noise r; rs_remnoise := rs_remnoise r;
     rs_rxerrors := v; rs_fixed := rs_fixed r |}.
Definition put_fixed (v : Z) (r : mavlink_radio_status_t) : mavlink_radio_status_t :=
  {| rs_rssi := rs_rssi r; rs_remrssi := rs_remrssi r; rs_txbuf := rs_txbuf r;
     rs_noise := rs_noise r; rs_remnoise := rs_remnoise r;
     rs_rxerrors := rs_rxerrors r; rs_fixed := v |}.

(** Statement number [pc] of the body of [set], after the lock is taken. *)
Definition set_stmt {msgT} `{RadioFields msgT} (rst : msgT) (pc : nat)
  (this : TDRRadioStatus) : TDRRadioStatus :=
  match pc with
  | 0%nat => store_data_received true this
  | 1%nat => store_last_rst (put_rssi (rssi rst)) this
  | 2%nat => store_last_rst (put_remrssi (remrssi rst)) this
  | 3%nat => store_last_rst (put_txbuf (txbuf rst)) this
  | 4%nat => store_last_rst (put_noise (noise rst)) this
  | 5%nat => store_last_rst (put_remnoise (remnoise rst)) this
  | 6%nat => store_last_rst (put_rxerrors (rxerrors rst)) this
  | 7%nat => store_last_rst (put_fixed (fixed rst)) this
  | _ => this
  end.

Definition set_length : nat := 8.

(** The locals of [run]: the two [float] variables and the status object of
    the caller. *)
Record run_locals := {
  rssi_dbm : spec_float;
  remrssi_dbm : spec_float;
  l_stat : DiagnosticStatusWrapper
}.

Definition enter_run (stat : DiagnosticStatusWrapper) : run_locals :=
  {| rssi_dbm := S754_zero false; remrssi_dbm := S754_zero false; l_stat := stat |}.

Definition with_stat (f : DiagnosticStatusWrapper -> DiagnosticStatusWrapper)
  (l : run_locals) : run_locals :=
  {| rssi_dbm := rssi_dbm l; remrssi_dbm := remrssi_dbm l; l_stat := f (l_stat l) |}.

(** Statement number [pc] of the body of [run], after the lock is taken. *)
Definition run_stmt (this : TDRRadioStatus) (pc : nat) (l : run_locals) : run_locals :=
  match pc with
  | 0%nat => with_stat (run_summary this) l
  | 1%nat => {| rssi_dbm := dbm_of_raw (rs_rssi (last_rst this));
                remrssi_dbm := remrssi_dbm l; l_stat := l_stat l |}
  | 2%nat => {| rssi_dbm := rssi_dbm l;
                remrssi_dbm := dbm_of_raw (rs_remrssi (last_rst this));
                l_stat := l_stat l |}
  | 3%nat => with_stat (addf "RSSI" (CFloat.format_u (rs_rssi (last_rst this)))) l
  | 4%nat => with_stat (addf "RSSI (dBm)" (CFloat.format_1f (rssi_dbm l))) l
  | 5%nat => with_stat (addf "Remote RSSI" (CFloat.format_u (rs_remrssi (last_rst this)))) l
  | 6%nat => with_stat (addf "Remote RSSI (dBm)" (CFloat.format_1f (remrssi_dbm l))) l
  | 7%nat => with_stat (addf "Tx buffer (%)" (CFloat.format_u (rs_txbuf (last_rst this)))) l
  | 8%nat => with_stat (addf "Noice level" (CFloat.format_u (rs_noise (last_rst this)))) l
  | 9%nat => with_stat (addf "Remote noice level"
                             (CFloat.format_u (rs_remnoise (last_rst this)))) l
  | 10%nat => with_stat (addf "Rx errors" (CFloat.format_u (rs_rxerrors (last_rst this)))) l
  | 11%nat => with_stat (addf "Fixed" (CFloat.format_u (rs_fixed (last_rst this)))) l
  | _ => l
  end.

Definition run_length : nat := 12.

(** The statement of a [set] call, for either payload type. *)
Definition set_stmt_of (c : tracker_call) (pc : nat) (this : TDRRadioStatus)
  : TDRRadioStatus :=
  match c with
  | CallSet rst => set_stmt rst pc this
  | CallSetLegacy rst => set_stmt rst pc this
  | CallRun _ => this
  end.

(** [boost::recursive_mutex]: the owning thread and how often it holds it. *)
Definition recursive_mutex : Type := option (nat * nat).

Definition try_lock (tid : nat) (m : recursive_mutex) : option recursive_mutex :=
  match m with
  | None => Some (Some (tid, 1%nat))
  | Some (o, n) => if Nat.eqb o tid then Some (Some (tid, S n)) else None
  end.

Definition unlock (tid : nat) (m : recursive_mutex) : recursive_mutex :=
  match m with
  | Some (o, S n) =>
      if Nat.eqb o tid
      then match n with O => None | S _ => Some (o, n) end
      else m
  | _ => m
  end.

(** Where a thread is: between calls, or inside the critical section of
    [set] or [run] with [pc] statements done. *)
Inductive frame :=
| Idle
| InSet (c : tracker_call) (pc : nat)
| InRun (stat_in : DiagnosticStatusWrapper) (pc : nat) (l : run_locals).

Record thread := {
  todo : list tracker_call;
  at_frame : frame
}.

(** Calls that have returned, in the order of their return. *)
Inductive done_event :=
| UpdateDone (tid : nat) (c : tracker_call)
| RenderDone (tid : nat) (stat_in stat_out : DiagnosticStatusWrapper).

Record config := {
  obj : TDRRadioStatus;
  mutex : recursive_mutex;
  threads : list thread;
  history : list done_event
}.

Definition with_thread (tid : nat) (th : thread) (cfg : config) : config :=
  {| obj := obj cfg; mutex := mutex cfg;
     threads := <[tid := th]> (threads cfg); history := history cfg |}.

(** One step of thread [tid]. A thread that does not exist, has nothing left
    to do, or waits for the mutex leaves the configuration as it is. *)
Definition step (cfg : config) (tid : nat) : config :=
  match threads cfg !! tid with
  | None => cfg
  | Some th =>
      match at_frame th with
      | Idle =>
          match todo th with
          | [] => cfg
          | c :: rest =>
              match try_lock tid (mutex cfg) with
              | None => cfg
              | Some m =>
                  let fr := match c with
                            | CallRun stat => InRun stat 0 (enter_run stat)
                            | _ => InSet c 0
                            end in
                  {| obj := obj cfg; mutex := m;
                     threads := <[tid := {| todo := rest; at_frame := fr |}]> (threads cfg);
                     history := history cfg |}
              end
          end
      | InSet c pc =>
          if (pc <? set_length)%nat then
            {| obj := set_stmt_of c pc (obj cfg); mutex := mutex cfg;
               threads := <[tid := {| todo := todo th; at_frame := InSet c (S pc) |}]>
                            (threads cfg);
               history := history cfg |}
          else
            {| obj := obj cfg; mutex := unlock tid (mutex cfg);
               threads := <[tid := {| todo := todo th; at_frame := Idle |}]> (threads cfg);
               history := history cfg ++ [UpdateDone tid c] |}
      | InRun stat_in pc l =>
          if (pc <? run_length)%nat then
            {| obj := obj cfg; mutex := mutex cfg;
               threads := <[tid := {| todo := todo th;
                                      at_frame := InRun stat_in (S pc)
                                                        (run_stmt (obj cfg) pc l) |}]>
                            (threads cfg);
               history := history cfg |}
          else
            {| obj := obj cfg; mutex := unlock tid (mutex cfg);
               threads := <[tid := {| todo := todo th; at_frame := Idle |}]> (threads cfg);
               history := history cfg ++ [RenderDone tid stat_in (l_stat l)] |}
      end
  end.

(** An interleaving is the sequence of thread ids that the scheduler picks. *)
Definition exec (cfg : config) (schedule : list nat) : config :=
  fold_left step schedule cfg.

(** Every thread about to start its calls on the tracker [t0]. *)
Definition start (t0 : TDRRadioStatus) (scripts : list (list tracker_call)) : config :=
  {| obj := t0; mutex := None;
     threads := map (fun s => {| todo := s; at_frame := Idle |}) scripts;
     history := [] |}.

(** The tracker after the updates of a history, in the order of their
    completion. *)
Definition replay (t0 : TDRRadioStatus) (h : list done_event) : TDRRadioStatus :=
  fold_left (fun t e => match e with
                        | UpdateDone _ c => call t c
                        | RenderDone _ _ _ => t
                        end) h t0.

Definition is_update (e : done_event) : bool :=
  match e with UpdateDone _ _ => true | RenderDone _ _ _ => false end.

Definition no_update (h : list done_event) : bool :=
  forallb (fun e => negb (is_update e)) h.

(** The first [pc] statements of a [set] call, and of [run]. *)
Definition set_prefix (c : tracker_call) (pc : nat) (this : TDRRadioStatus)
  : TDRRadioStatus :=
  fold_left (fun t k => set_stmt_of c k t) (seq 0 pc) this.

Definition run_prefix (this : TDRRadioStatus) (pc : nat) (l : run_locals) : run_locals :=
  fold_left (fun l k => run_stmt this k l) (seq 0 pc) l.

(** Every report of a history is the one [run] gives on the tracker as the
    updates completed before it left it. *)
Fixpoint renders_ok (this : TDRRadioStatus) (h : list done_event) : Prop :=
  match h with
  | [] => True
  | UpdateDone _ c :: h' => is_set_call c = true /\ renders_ok (call this c) h'
  | RenderDone _ stat_in stat_out :: h' =>
      stat_out = snd (run this stat_in) /\ renders_ok this h'
  end.

Definition all_idle (ths : list thread) : Prop :=
  forall j th, ths !! j = Some th -> at_frame th = Idle.

Definition others_idle (tid : nat) (ths : list thread) : Prop :=
  forall j th, ths !! j = Some th -> j <> tid -> at_frame th = Idle.

(** What the frame of the thread that holds the mutex says about the shared
    object, [now] being the tracker after the completed updates. *)
Definition frame_ok (now : TDRRadioStatus) (shared : TDRRadioStatus) (fr : frame) : Prop :=
  match fr with
  | Idle => False
  | InSet c pc =>
      is_set_call c = true /\ (pc <= set_length)%nat /\ shared = set_prefix c pc now
  | InRun stat_in pc l =>
      (pc <= run_length)%nat /\ shared = now /\ l = run_prefix now pc (enter_run stat_in)
  end.

(** The invariant of the executions that start from the tracker [t0]. *)
Definition invariant (t0 : TDRRadioStatus) (cfg : config) : Prop :=
  renders_ok t0 (history cfg)
  /\ match mutex cfg with
     | None => obj cfg = replay t0 (history cfg) /\ all_idle (threads cfg)
     | Some (o, n) =>
         n = 1%nat /\ others_idle o (threads cfg)
         /\ exists th, threads cfg !! o = Some th
                       /\ frame_ok (replay t0 (history cfg)) (obj cfg) (at_frame th)
     end.

(** The claim in the words of the specification: every report is computed
    from the sample of one update that completed before it. *)
Definition every_render_reads_an_update (t0 : TDRRadioStatus) (h : list done_event)
  : Prop :=
  forall h1 tid stat_in stat_out h2,
    h = (h1 ++ RenderDone tid stat_in stat_out :: h2)%list ->
    exists ha tid' c hb,
      h1 = (ha ++ UpdateDone tid' c :: hb)%list
      /\ is_set_call c = true
      /\ stat_out = snd (run (call t0 c) stat_in).

End Concurrent.

(** ** The wording of the specification

    Definitions that follow the text of the specification, to be compared
    with the code above. *)

Module Spec.

(** The two states of the tracker. *)
Inductive tracker_state := NoData | HasData.

Definition state_of (this : TDRRadioStatus) : tracker_state :=
  if data_received this then HasData else NoData.

(** [rssi_dBm = (rssi / 1.9) - 127], over the rationals. *)
Definition dbm_exact (raw : Z) : Q := (inject_Z raw / (19 # 10) - inject_Z 127)%Q.

(** The rational value of a finite binary floating-point number. *)
Definition SF2Q (x : spec_float) : option Q :=
  match x with
  | S754_zero _ => Some 0%Q
  | S754_finite s m e => Some (inject_Z (cond_Zopp s (Zpos m)) * Qpower 2 e)%Q
  | _ => None
  end.

(** A rational number written with one decimal place, rounded to nearest. *)
Definition tenths_nearest (q : Q) : Z := Qfloor (q * 10 + (1 # 2))%Q.

Definition decimal_1 (q : Q) : string :=
  let t := tenths_nearest q in
  String.append (if t <? 0 then "-"%string else ""%string)
    (String.append (CFloat.string_of_nonneg (Z.abs t / 10))
       (String.append "." (CFloat.string_of_nonneg (Z.abs t mod 10)))).

(** The labels of the key/value pairs as the specification lists them. *)
Definition labels : list string :=
  ["RSSI"; "RSSI(dBm)"; "Remote RSSI"; "Remote RSSI(dBm)"; "Tx buffer %";
   "Noise"; "Remote noise"; "Rx errors"; "Fixed-error count"]%string.

End Spec.

(** ** Examples of inputs *)

(** A decoder with the member layout of the generated MAVLink code (members
    sorted by size, little endian), to run the plugin on concrete messages. *)
Definition byte_at (p : list Z) (i : nat) : Z := nth i p 0.
Definition uint16_at (p : list Z) (i : nat) : Z := byte_at p i + 256 * byte_at p (S i).

Definition wire_radio_status (msg : mavlink_message_t) : mavlink_radio_status_t :=
  let p := payload msg in
  {| rs_rxerrors := uint16_at p 0; rs_fixed := uint16_at p 2;
     rs_rssi := byte_at p 4; rs_remrssi := byte_at p 5; rs_txbuf := byte_at p 6;
     rs_noise := byte_at p 7; rs_remnoise := byte_at p 8 |}.

Definition wire_radio (msg : mavlink_message_t) : mavlink_radio_t :=
  let p := payload msg in
  {| r_rxerrors := uint16_at p 0; r_fixed := uint16_at p 2;
     r_rssi := byte_at p 4; r_remrssi := byte_at p 5; r_txbuf := byte_at p 6;
     r_noise := byte_at p 7; r_remnoise := byte_at p 8 |}.

Definition sample_a : mavlink_radio_status_t :=
  {| rs_rssi := 30; rs_remrssi := 50; rs_txbuf := 99; rs_noise := 12;
     rs_remnoise := 13; rs_rxerrors := 65535; rs_fixed := 7 |}.

Definition sample_b : mavlink_radio_status_t :=
  {| rs_rssi := 100; rs_remrssi := 200; rs_txbuf := 1; rs_noise := 2;
     rs_remnoise := 3; rs_rxerrors := 4; rs_fixed := 5 |}.

(** The sender is the expected modem: system id ['3'], component id ['D']. *)
Definition from_3dr_modem (sysid compid : Z) : bool :=
  (sysid =? char_3) && (compid =? char_D).

Definition inbound_of (id : Z) (p : list Z) (sysid compid : Z) (t : Z) : inbound :=
  {| in_msg := {| msgid := id; payload := p |};
     in_sysid := sysid; in_compid := compid;
     in_now := {| sec := t; nsec := 0 |} |}.

(** The checks behind the accuracy of the dBm values, run on each raw
    value: the [float] is finite and within [2^-18] of the exact value, and
    its text is the exact value written with one decimal place. *)
Definition dbm_accurate (raw : Z) : bool :=
  match Spec.SF2Q (dbm_of_raw raw) with
  | Some v => Qle_bool (Qabs (v - Spec.dbm_exact raw)) (1 # 2 ^ 18)
  | None => false
  end.

Definition dbm_text_exact (raw : Z) : bool :=
  String.eqb (CFloat.format_1f (dbm_of_raw raw)) (Spec.decimal_1 (Spec.dbm_exact raw)).

Definition uint8_values : list Z := map Z.of_nat (seq 0 256).

(** The updates of one producer and one reader, and a schedule that lets
    the reader in between the two updates. *)
Definition example_scripts : list (list tracker_call) :=
  [[CallSet sample_a; CallSet sample_b]; [CallRun fresh_status]].

Definition example_schedule : list nat :=
  [0; 0; 0; 1; 1; 0; 0; 0; 1; 0; 0; 0; 0; 1; 1; 0; 1; 1; 1; 1; 1; 1; 1; 1; 1; 1;
   1; 1; 1; 0; 0; 0; 0; 0; 0; 0; 0; 0; 0]%nat.

(** ** The rest of the plugin interface, and measures on its output *)

(** [get_name()]. *)
Definition get_name : string := "3DRRadio".

(** [get_supported_messages()]: RADIO_STATUS, and RADIO when the dialect
    defines it. *)
Definition get_supported_messages (MAVLINK_MSG_ID_RADIO_STATUS : Z)
  (MAVLINK_MSG_ID_RADIO : option Z) : list Z :=
  MAVLINK_MSG_ID_RADIO_STATUS ::
  match MAVLINK_MSG_ID_RADIO with
  | Some id_radio => [id_radio]
  | None => []
  end.

(** Two payloads with the same values in the seven members. *)
Definition same_fields {A B} `{RadioFields A} `{RadioFields B} (a : A) (b : B) : Prop :=
  rssi a = rssi b /\ remrssi a = remrssi b /\ txbuf a = txbuf b
  /\ noise a = noise b /\ remnoise a = remnoise b
  /\ rxerrors a = rxerrors b /\ fixed a = fixed b.

(** The sample that a published message carries. *)
Definition sample_of_msg (m : RadioStatus) : mavlink_radio_status_t :=
  {| rs_rssi := msg_rssi m; rs_remrssi := msg_remrssi m; rs_txbuf := msg_txbuf m;
     rs_noise := msg_noise m; rs_remnoise := msg_remnoise m;
     rs_rxerrors := msg_rxerrors m; rs_fixed := msg_fixed m |}.

(** The message published last, if any. *)
Definition last_published (out : list ros_event) : option RadioStatus :=
  fold_left (fun acc ev => match ev with
                           | EvPublish m => Some m
                           | EvWarnThrottle _ _ _ => acc
                           end) out None.

Definition is_warning (ev : ros_event) : bool :=
  match ev with EvWarnThrottle _ _ _ => true | EvPublish _ => false end.

(** The requests made to the throttled logger. *)
Definition warnings (out : list ros_event) : list ros_event := List.filter is_warning out.

Definition from_expected_modem (i : inbound) : bool :=
  from_3dr_modem (in_sysid i) (in_compid i).

(** The tracker of the plugin is determined by the last published message. *)
Definition mirrors (this : TDRRadioPlugin) : Prop :=
  tdr_diag this
  = match last_published (ros_out this) with
    | None => TDRRadioStatus_new "3DR Radio" 40
    | Some m => {| task_name := "3DR Radio"; last_rst := sample_of_msg m;
                   data_received := true; low_rssi := 40 |}
    end.

(** The comparison [a < b] of two [float] values. *)
Definition float_lt (a b : spec_float) : bool := SFltb a b.
Definition float_le (a b : spec_float) : bool := SFleb a b.

(** The order and the range of the values of a table, and the table of the
    dBm values of all raw values. *)
Definition table_ordered (lo hi : spec_float) (tbl : list (Z * spec_float)) : bool :=
  forallb (fun x =>
             float_le lo (snd x) && float_le (snd x) hi
             && forallb (fun y => implb (fst x <? fst y) (float_lt (snd x) (snd y))) tbl)
          tbl.

Definition dbm_table : list (Z * spec_float) :=
  map (fun raw => (raw, dbm_of_raw raw)) uint8_values.

(** ** Measures on the executions of concurrent callers *)

Module Scheduling.
Import Concurrent.
Local Open Scope nat_scope.

(** A thread inside the critical section of [set] or [run]. *)
Definition busy (th : thread) : bool :=
  match at_frame th with Idle => false | _ => true end.

(** A thread that has returned from its last call. *)
Definition finished (th : thread) : bool :=
  negb (busy th) && match todo th with [] => true | _ :: _ => false end.

(** The steps of a call: taking the mutex, the statements, leaving the
    scope of the lock. *)
Definition call_cost (c : tracker_call) : nat :=
  match c with
  | CallRun _ => S (S run_length)
  | _ => S (S set_length)
  end.

(** The steps left in the call a thread is in. *)
Definition frame_cost (fr : frame) : nat :=
  match fr with
  | Idle => 0
  | InSet _ pc => S set_length - pc
  | InRun _ pc _ => S run_length - pc
  end.

Definition thread_work (th : thread) : nat :=
  frame_cost (at_frame th) + list_sum (map call_cost (todo th)).

(** The steps left until every thread has finished. *)
Definition work (cfg : config) : nat := list_sum (map thread_work (threads cfg)).

Definition event_tid (e : done_event) : nat :=
  match e with UpdateDone tid _ => tid | RenderDone tid _ _ => tid end.

Definition event_call (e : done_event) : tracker_call :=
  match e with
  | UpdateDone _ c => c
  | RenderDone _ stat_in _ => CallRun stat_in
  end.

(** The calls of thread [tid] that have returned, in the order of return. *)
Definition done_by (tid : nat) (h : list done_event) : list tracker_call :=
  map event_call (List.filter (fun e => Nat.eqb (event_tid e) tid) h).

(** The call a thread is in. *)
Definition inflight (fr : frame) : list tracker_call :=
  match fr with
  | Idle => []
  | InSet c _ => [c]
  | InRun stat_in _ _ => [CallRun stat_in]
  end.

(** Each script is the calls its thread has returned from, the call it is
    in, and the calls it has yet to make. *)
Definition accounted (scripts : list (list tracker_call)) (cfg : config) : Prop :=
  forall tid script, scripts !! tid = Some script ->
    exists th, threads cfg !! tid = Some th
               /\ script = (done_by tid (history cfg) ++ inflight (at_frame th)
                             ++ todo th)%list.

End Scheduling.

(** * Properties *)

(** ** The summary of a report *)

Lemma run_report (this : TDRRadioStatus) (stat : DiagnosticStatusWrapper) :
  level (snd (run this stat)) = level (run_summary this stat)
  /\ message (snd (run this stat)) = message (run_summary this stat).
Proof. split; reflexivity. Qed.

(** C1. [run] chooses the summary by the first matching case: no data
    received gives level 2 (neither WARN nor OK) with "No data", whatever the
    threshold; otherwise a local RSSI below the threshold gives WARN
    "Low RSSI"; otherwise a remote RSSI below the threshold gives WARN
    "Low remote RSSI"; otherwise OK "Normal". A local RSSI below the threshold
    never gives "Low remote RSSI". *)
Theorem run_summary_first_match (this : TDRRadioStatus) (stat : DiagnosticStatusWrapper) :
  let report := snd (run this stat) in
  (data_received this = false ->
     level report = level_ERROR /\ level report <> level_WARN
     /\ level report <> level_OK /\ message report = "No data"%string)
  /\ (data_received this = true -> rs_rssi (last_rst this) < low_rssi this ->
      level report = level_WARN /\ message report = "Low RSSI"%string)
  /\ (data_received this = true -> low_rssi this <= rs_rssi (last_rst this) ->
      rs_remrssi (last_rst this) < low_rssi this ->
      level report = level_WARN /\ message report = "Low remote RSSI"%string)
  /\ (data_received this = true -> low_rssi this <= rs_rssi (last_rst this) ->
      low_rssi this <= rs_remrssi (last_rst this) ->
      level report = level_OK /\ message report = "Normal"%string)
  /\ (rs_rssi (last_rst this) < low_rssi this ->
      message report <> "Low remote RSSI"%string).
Proof.
  intros report. subst report.
  destruct (run_report this stat) as [-> ->].
  unfold run_summary.
  destruct (data_received this); simpl.
  - destruct (Z.ltb_spec (rs_rssi (last_rst this)) (low_rssi this)) as [Hl | Hl];
      [| destruct (Z.ltb_spec (rs_remrssi (last_rst this)) (low_rssi this)) as [Hr | Hr]];
      simpl; repeat split; intros; try discriminate; try lia.
  - repeat split; intros; discriminate.
Qed.

Lemma run_summary_first_match_witness :
  let this := set (TDRRadioStatus_new "3DR Radio" 40) sample_a in
  level (render this) = level_WARN
  /\ message (render this) = "Low RSSI"%string
  /\ message (render this) <> "Low remote RSSI"%string.
Proof.
  intros this.
  destruct (run_summary_first_match this fresh_status) as (_ & Hlow & _ & _ & Hnot).
  split; [| split].
  - apply Hlow; [reflexivity | reflexivity].
  - apply Hlow; [reflexivity | reflexivity].
  - apply Hnot. reflexivity.
Defined.

Example summary_low_remote :
  let this := set (TDRRadioStatus_new "3DR Radio" 40)
                  {| rs_rssi := 50; rs_remrssi := 30; rs_txbuf := 0; rs_noise := 0;
                     rs_remnoise := 0; rs_rxerrors := 0; rs_fixed := 0 |} in
  (level (render this), message (render this)) = (1, "Low remote RSSI"%string).
Proof. reflexivity. Qed.

Example summary_normal :
  let this := set (TDRRadioStatus_new "3DR Radio" 40)
                  {| rs_rssi := 50; rs_remrssi := 50; rs_txbuf := 0; rs_noise := 0;
                     rs_remnoise := 0; rs_rxerrors := 0; rs_fixed := 0 |} in
  (level (render this), message (render this)) = (0, "Normal"%string).
Proof. reflexivity. Qed.

(** ** [set] *)

Lemma set_eq {msgT} `{RadioFields msgT} (this other : TDRRadioStatus) (rst : msgT) :
  task_name this = task_name other -> low_rssi this = low_rssi other ->
  set this rst = set other rst.
Proof. intros Hn Hl. unfold set. rewrite Hn, Hl. reflexivity. Qed.

(** [run] does not read the name of the task. *)
Lemma run_name_irrelevant (this : TDRRadioStatus) (name : string)
  (stat : DiagnosticStatusWrapper) :
  snd (run {| task_name := name; last_rst := last_rst this;
              data_received := data_received this; low_rssi := low_rssi this |} stat)
  = snd (run this stat).
Proof. reflexivity. Qed.

(** The pairs that [run] appends, in the order of its [addf] calls. *)
Lemma run_values (this : TDRRadioStatus) (stat : DiagnosticStatusWrapper) :
  values (snd (run this stat))
  = (values stat ++
    [("RSSI", CFloat.format_u (rs_rssi (last_rst this)));
     ("RSSI (dBm)", CFloat.format_1f (dbm_of_raw (rs_rssi (last_rst this))));
     ("Remote RSSI", CFloat.format_u (rs_remrssi (last_rst this)));
     ("Remote RSSI (dBm)", CFloat.format_1f (dbm_of_raw (rs_remrssi (last_rst this))));
     ("Tx buffer (%)", CFloat.format_u (rs_txbuf (last_rst this)));
     ("Noice level", CFloat.format_u (rs_noise (last_rst this)));
     ("Remote noice level", CFloat.format_u (rs_remnoise (last_rst this)));
     ("Rx errors", CFloat.format_u (rs_rxerrors (last_rst this)));
     ("Fixed", CFloat.format_u (rs_fixed (last_rst this)))])%list.
Proof.
  unfold run. cbn [snd addf values level message].
  assert (Hs : values (run_summary this stat) = values stat).
  { unfold run_summary.
    destruct (negb (data_received this)); [reflexivity |].
    destruct (rs_rssi (last_rst this) <? low_rssi this); [reflexivity |].
    destruct (rs_remrssi (last_rst this) <? low_rssi this); reflexivity. }
  rewrite Hs. rewrite <- !app_assoc. reflexivity.
Qed.

(** C3. [set rst] makes [data_received] true and stores the seven members of
    [rst] in [last_rst]; it is a total function and leaves the threshold as it
    was. The report of a [run] that follows is computed from [rst] and the
    threshold alone: its summary is chosen by comparing the two RSSI members
    of [rst] with the threshold, and the nine values it appends are the
    members of [rst] and the two dBm values derived from them, in the order
    of the [addf] calls. It is therefore the report of a newly constructed
    tracker with the same threshold that was given [rst]: nothing of an
    earlier sample remains in it. *)
Theorem set_overwrites {msgT} `{RadioFields msgT} (this : TDRRadioStatus) (rst : msgT) :
  data_received (set this rst) = true
  /\ last_rst (set this rst)
     = {| rs_rssi := rssi rst; rs_remrssi := remrssi rst; rs_txbuf := txbuf rst;
          rs_noise := noise rst; rs_remnoise := remnoise rst;
          rs_rxerrors := rxerrors rst; rs_fixed := fixed rst |}
  /\ low_rssi (set this rst) = low_rssi this
  /\ (forall (name : string) (stat : DiagnosticStatusWrapper),
       snd (run (set this rst) stat)
       = snd (run (set (TDRRadioStatus_new name (low_rssi this)) rst) stat))
  /\ (forall stat : DiagnosticStatusWrapper,
       let report := snd (run (set this rst) stat) in
       (level report, message report)
       = (if rssi rst <? low_rssi this then (1, "Low RSSI"%string)
          else if remrssi rst <? low_rssi this then (1, "Low remote RSSI"%string)
          else (0, "Normal"%string))
       /\ map snd (values report)
          = (map snd (values stat) ++
             [CFloat.format_u (rssi rst);
              CFloat.format_1f (dbm_of_raw (rssi rst));
              CFloat.format_u (remrssi rst);
              CFloat.format_1f (dbm_of_raw (remrssi rst));
              CFloat.format_u (txbuf rst);
              CFloat.format_u (noise rst);
              CFloat.format_u (remnoise rst);
              CFloat.format_u (rxerrors rst);
              CFloat.format_u (fixed rst)])%list).
Proof.
  split; [reflexivity |]. split; [reflexivity |]. split; [reflexivity |].
  split; [reflexivity |].
  intros stat report. subst report. split.
  - destruct (run_report (set this rst) stat) as [-> ->].
    unfold run_summary. cbn [set data_received last_rst low_rssi rs_rssi rs_remrssi negb].
    destruct (rssi rst <? low_rssi this); [reflexivity |].
    destruct (remrssi rst <? low_rssi this); reflexivity.
  - rewrite run_values, map_app. reflexivity.
Qed.

Example set_then_render_rssi_100 :
  let this := set (set (TDRRadioStatus_new "3DR Radio" 40) sample_a) sample_b in
  render this
  = {| level := 0; message := "Normal";
       values := [("RSSI", "100"); ("RSSI (dBm)", "-74.4"); ("Remote RSSI", "200");
                  ("Remote RSSI (dBm)", "-21.7"); ("Tx buffer (%)", "1");
                  ("Noice level", "2"); ("Remote noice level", "3");
                  ("Rx errors", "4"); ("Fixed", "5")]%string |}.
Proof. vm_compute. reflexivity. Qed.

(** The stored sample keeps the width of the members it was copied from. *)
Lemma set_well_formed {msgT} `{RadioFields msgT} (this : TDRRadioStatus) (rst : msgT) :
  well_formed rst = true -> well_formed (last_rst (set this rst)) = true.
Proof. intros Hwf. exact Hwf. Qed.

Lemma calls_well_formed (l : list tracker_call) (this : TDRRadioStatus) :
  well_formed (last_rst this) = true -> forallb call_well_formed l = true ->
  well_formed (last_rst (calls this l)) = true.
Proof.
  revert this. induction l as [| c l IH]; intros this Hthis Hl; [exact Hthis |].
  simpl in Hl. apply andb_true_iff in Hl. destruct Hl as [Hc Hl].
  unfold calls. simpl. apply IH; [| exact Hl].
  destruct c as [rst | rst | stat]; [exact Hc | exact Hc | exact Hthis].
Qed.

Lemma well_formed_rssi (rst : mavlink_radio_status_t) :
  well_formed rst = true ->
  is_uint8 (rs_rssi rst) = true /\ is_uint8 (rs_remrssi rst) = true.
Proof.
  unfold well_formed. cbn [rssi remrssi radio_status_fields]. intros Hwf.
  do 5 (apply andb_true_iff in Hwf; destruct Hwf as [Hwf _]).
  apply andb_true_iff in Hwf. exact Hwf.
Qed.

(** ** The state of the tracker *)

Lemma run_keeps_object (this : TDRRadioStatus) (stat : DiagnosticStatusWrapper) :
  fst (run this stat) = this.
Proof. reflexivity. Qed.

Lemma call_data_received (this : TDRRadioStatus) (c : tracker_call) :
  data_received (call this c) = is_set_call c || data_received this.
Proof. destruct c; reflexivity. Qed.

Lemma calls_data_received (l : list tracker_call) (this : TDRRadioStatus) :
  data_received (calls this l) = existsb is_set_call l || data_received this.
Proof.
  revert this. induction l as [| c l IH]; intros this; simpl.
  - reflexivity.
  - unfold calls in *. simpl. rewrite IH, call_data_received.
    destruct (is_set_call c), (existsb is_set_call l), (data_received this); reflexivity.
Qed.

Lemma call_low_rssi (this : TDRRadioStatus) (c : tracker_call) :
  low_rssi (call this c) = low_rssi this /\ task_name (call this c) = task_name this.
Proof. destruct c; split; reflexivity. Qed.

(** C6. The tracker is in one of two states. A new tracker is in [NoData];
    every [set] leads to [HasData]; [run] keeps the state; from [HasData] no
    sequence of calls leads back to [NoData]; and a new tracker is in
    [HasData] after a sequence of calls exactly when the sequence has a
    [set]. *)
Theorem data_received_one_way :
  (forall name low, Spec.state_of (TDRRadioStatus_new name low) = Spec.NoData)
  /\ (forall this c, is_set_call c = true -> Spec.state_of (call this c) = Spec.HasData)
  /\ (forall this stat, Spec.state_of (fst (run this stat)) = Spec.state_of this)
  /\ (forall this l, Spec.state_of this = Spec.HasData ->
        Spec.state_of (calls this l) = Spec.HasData)
  /\ (forall name low l,
        Spec.state_of (calls (TDRRadioStatus_new name low) l)
        = if existsb is_set_call l then Spec.HasData else Spec.NoData).
Proof.
  unfold Spec.state_of. repeat split.
  - intros this c Hc. rewrite call_data_received, Hc. reflexivity.
  - intros this l. rewrite calls_data_received.
    destruct (data_received this); [| discriminate].
    rewrite orb_true_r. reflexivity.
  - intros name low l. rewrite calls_data_received. simpl.
    rewrite orb_false_r. reflexivity.
Qed.

Lemma data_received_one_way_witness :
  let this := set (TDRRadioStatus_new "3DR Radio" 40) sample_a in
  Spec.state_of this = Spec.HasData
  /\ Spec.state_of (calls this [CallRun fresh_status; CallSet sample_b;
                                CallRun fresh_status]) = Spec.HasData.
Proof.
  intros this.
  destruct data_received_one_way as (_ & Hset & _ & Hkeep & _).
  split.
  - apply (Hset (TDRRadioStatus_new "3DR Radio" 40) (CallSet sample_a)). reflexivity.
  - apply Hkeep. reflexivity.
Defined.

(** ** [run] as a reader *)

(** C7. [run] leaves the object as it is (the flag, the stored sample and the
    threshold), and a second [run] on an equal status object gives the same
    report as the first. *)
Theorem run_pure_reader (this : TDRRadioStatus) (stat : DiagnosticStatusWrapper) :
  fst (run this stat) = this
  /\ snd (run (fst (run this stat)) stat) = snd (run this stat)
  /\ render (fst (run this stat)) = render this.
Proof. repeat split. Qed.

(** ** The key/value pairs *)

(** C8, as the code has it. Every report has nine key/value pairs after
    those the status object already had, in this order: "RSSI", "RSSI (dBm)",
    "Remote RSSI", "Remote RSSI (dBm)", "Tx buffer (%)", the noise level, the
    remote noise level, "Rx errors", "Fixed"; they hold the stored rssi, its
    dBm value, remrssi, its dBm value, txbuf, noise, remnoise, rxerrors and
    fixed. The spelling of the two noise keys is left open here; [run_values]
    has them as the source spells them. *)
Theorem run_keys_in_order (this : TDRRadioStatus) (stat : DiagnosticStatusWrapper) :
  exists noise_key remnoise_key : string,
    values (snd (run this stat))
    = (values stat ++
       [("RSSI", CFloat.format_u (rs_rssi (last_rst this)));
        ("RSSI (dBm)", CFloat.format_1f (dbm_of_raw (rs_rssi (last_rst this))));
        ("Remote RSSI", CFloat.format_u (rs_remrssi (last_rst this)));
        ("Remote RSSI (dBm)", CFloat.format_1f (dbm_of_raw (rs_remrssi (last_rst this))));
        ("Tx buffer (%)", CFloat.format_u (rs_txbuf (last_rst this)));
        (noise_key, CFloat.format_u (rs_noise (last_rst this)));
        (remnoise_key, CFloat.format_u (rs_remnoise (last_rst this)));
        ("Rx errors", CFloat.format_u (rs_rxerrors (last_rst this)));
        ("Fixed", CFloat.format_u (rs_fixed (last_rst this)))])%list.
Proof. eexists _, _. apply run_values. Qed.

(** C8, as the specification words it: the labels of a report are not the
    listed ones. *)
Lemma run_keys_not_spec_labels :
  map fst (values (render (TDRRadioStatus_new "3DR Radio" 40))) <> Spec.labels.
Proof. vm_compute. discriminate. Qed.

(** C10. Before any [set], [run] reports "No data" together with all nine
    key/value pairs, computed from the zeroed sample: each raw value is "0"
    and each dBm value is "-127.0". *)
Theorem render_before_first_set (name : string) (low : Z) :
  render (TDRRadioStatus_new name low)
  = {| level := 2; message := "No data";
       values := [("RSSI", "0"); ("RSSI (dBm)", "-127.0"); ("Remote RSSI", "0");
                  ("Remote RSSI (dBm)", "-127.0"); ("Tx buffer (%)", "0");
                  ("Noice level", "0"); ("Remote noice level", "0");
                  ("Rx errors", "0"); ("Fixed", "0")]%string |}.
Proof. vm_compute. reflexivity. Qed.

(** ** The plugin *)

Lemma emit_out (ev : ros_event) (this : TDRRadioPlugin) :
  ros_out (emit ev this) = (ros_out this ++ [ev])%list
  /\ tdr_diag (emit ev this) = tdr_diag this
  /\ has_radio_status (emit ev this) = has_radio_status this.
Proof. repeat split. Qed.

Lemma handle_message_has_radio_status {msgT} `{RadioFields msgT}
  (this : TDRRadioPlugin) (rst : msgT) (sysid compid : Z) (now : ros_Time) :
  has_radio_status (handle_message this rst sysid compid now) = has_radio_status this.
Proof.
  unfold handle_message.
  destruct (negb (sysid =? char_3) || negb (compid =? char_D)); reflexivity.
Qed.

(** C5. Whatever the ids of the sender, [handle_message] is a total function
    that stores the sample in the tracker and publishes it with the current
    stamp, exactly as for the ids of the expected modem; the only difference
    for other ids is one request to the throttled logger (period 30) before
    the update. *)
Theorem handle_message_any_sender {msgT} `{RadioFields msgT}
  (this : TDRRadioPlugin) (rst : msgT) (sysid compid : Z) (now : ros_Time) :
  let after := handle_message this rst sysid compid now in
  let expected := handle_message this rst char_3 char_D now in
  let msg := {| header_stamp := now;
                msg_rssi := rssi rst; msg_remrssi := remrssi rst;
                msg_txbuf := txbuf rst; msg_noise := noise rst;
                msg_remnoise := remnoise rst; msg_rxerrors := rxerrors rst;
                msg_fixed := fixed rst |} in
  tdr_diag after = set (tdr_diag this) rst
  /\ tdr_diag after = tdr_diag expected
  /\ has_radio_status after = has_radio_status expected
  /\ ros_out expected = (ros_out this ++ [EvPublish msg])%list
  /\ ros_out after
     = (ros_out this ++
        (if from_3dr_modem sysid compid then []
         else [EvWarnThrottle 30 "radio" "RADIO_STATUS not from 3DR modem?"]) ++
        [EvPublish msg])%list.
Proof.
  unfold handle_message, from_3dr_modem.
  rewrite !Z.eqb_refl. cbn [negb orb].
  destruct (sysid =? char_3), (compid =? char_D); cbn [negb orb andb];
    cbn [emit tdr_diag has_radio_status ros_out];
    rewrite <- ?app_assoc; repeat split.
Qed.

Example handle_message_foreign_sender :
  ros_out (handle_message TDRRadioPlugin_new sample_a 1 1 {| sec := 7; nsec := 0 |})
  = [EvWarnThrottle 30 "radio" "RADIO_STATUS not from 3DR modem?";
     EvPublish {| header_stamp := {| sec := 7; nsec := 0 |};
                  msg_rssi := 30; msg_remrssi := 50; msg_txbuf := 99;
                  msg_noise := 12; msg_remnoise := 13; msg_rxerrors := 65535;
                  msg_fixed := 7 |}].
Proof. reflexivity. Qed.

Section MessageRxProperties.

Variable MAVLINK_MSG_ID_RADIO_STATUS : Z.
Variable MAVLINK_MSG_ID_RADIO : option Z.
Variable mavlink_msg_radio_status_decode : mavlink_message_t -> mavlink_radio_status_t.
Variable mavlink_msg_radio_decode : mavlink_message_t -> mavlink_radio_t.

Abbreviation rx_cb :=
  (message_rx_cb MAVLINK_MSG_ID_RADIO_STATUS MAVLINK_MSG_ID_RADIO
     mavlink_msg_radio_status_decode mavlink_msg_radio_decode).
Abbreviation rx :=
  (deliver MAVLINK_MSG_ID_RADIO_STATUS MAVLINK_MSG_ID_RADIO
     mavlink_msg_radio_status_decode mavlink_msg_radio_decode).
Abbreviation rx_all :=
  (deliver_all MAVLINK_MSG_ID_RADIO_STATUS MAVLINK_MSG_ID_RADIO
     mavlink_msg_radio_status_decode mavlink_msg_radio_decode).

(** A RADIO_STATUS message sets the flag. *)
Lemma rx_radio_status_sets (this : TDRRadioPlugin) (i : inbound) :
  msgid (in_msg i) = MAVLINK_MSG_ID_RADIO_STATUS ->
  has_radio_status (rx this i) = true.
Proof.
  intros Hid. unfold deliver, message_rx_cb.
  rewrite Hid, Z.eqb_refl. apply handle_message_has_radio_status.
Qed.

(** No message clears the flag. *)
Lemma rx_keeps_flag (this : TDRRadioPlugin) (i : inbound) :
  has_radio_status this = true -> has_radio_status (rx this i) = true.
Proof.
  intros Hf. unfold deliver, message_rx_cb.
  destruct (msgid (in_msg i) =? MAVLINK_MSG_ID_RADIO_STATUS).
  - apply handle_message_has_radio_status.
  - destruct MAVLINK_MSG_ID_RADIO as [id_radio |]; [| exact Hf].
    destruct (msgid (in_msg i) =? id_radio); [| exact Hf].
    rewrite Hf. exact Hf.
Qed.

Lemma rx_all_keeps_flag (l : list inbound) (this : TDRRadioPlugin) :
  has_radio_status this = true -> has_radio_status (rx_all this l) = true.
Proof.
  revert this. induction l as [| i l IH]; intros this Hf; [exact Hf |].
  apply IH, rx_keeps_flag, Hf.
Qed.

Lemma rx_all_app (l1 l2 : list inbound) (this : TDRRadioPlugin) :
  rx_all this (l1 ++ l2) = rx_all (rx_all this l1) l2.
Proof. apply fold_left_app. Qed.

(** C2. After a RADIO_STATUS message has been processed, whatever was
    delivered before and after it, the flag [has_radio_status] is set, and a
    RADIO message leaves the whole plugin as it is: the tracker, the flag,
    and the events given to the logger and the publisher. The message ids of
    the two types differ, as the labels of one [switch]. *)
Theorem legacy_ignored_after_radio_status
  (this : TDRRadioPlugin) (before after : list inbound) (status legacy : inbound)
  (id_radio : Z) :
  MAVLINK_MSG_ID_RADIO = Some id_radio ->
  id_radio <> MAVLINK_MSG_ID_RADIO_STATUS ->
  msgid (in_msg status) = MAVLINK_MSG_ID_RADIO_STATUS ->
  msgid (in_msg legacy) = id_radio ->
  let plugin := rx_all this (before ++ status :: after) in
  has_radio_status plugin = true
  /\ rx plugin legacy = plugin.
Proof.
  intros Hdef Hne Hstatus Hlegacy plugin.
  assert (Hflag : has_radio_status plugin = true).
  { subst plugin. rewrite rx_all_app. cbn [deliver_all fold_left].
    apply rx_all_keeps_flag, rx_radio_status_sets, Hstatus. }
  split; [exact Hflag |].
  unfold deliver, message_rx_cb.
  rewrite Hdef, Hlegacy.
  destruct (Z.eqb_spec id_radio MAVLINK_MSG_ID_RADIO_STATUS) as [He | _];
    [contradiction |].
  rewrite Z.eqb_refl, Hflag. reflexivity.
Qed.

End MessageRxProperties.

Lemma legacy_ignored_after_radio_status_witness :
  let rx_all := deliver_all 109 (Some 166) wire_radio_status wire_radio in
  let rx := deliver 109 (Some 166) wire_radio_status wire_radio in
  let plugin :=
    rx_all TDRRadioPlugin_new
      ([inbound_of 166 [1; 0; 2; 0; 30; 50; 99; 12; 13] 51 68 1] ++
       inbound_of 109 [4; 0; 5; 0; 100; 200; 1; 2; 3] 51 68 2 ::
       [inbound_of 166 [0; 0; 0; 0; 1; 1; 1; 1; 1] 1 1 3])%list in
  has_radio_status plugin = true
  /\ rx plugin (inbound_of 166 [9; 9; 9; 9; 9; 9; 9; 9; 9] 51 68 4) = plugin.
Proof.
  intros rx_all rx plugin.
  apply (legacy_ignored_after_radio_status 109 (Some 166) wire_radio_status wire_radio
           TDRRadioPlugin_new _ _ _ _ 166).
  - reflexivity.
  - lia.
  - reflexivity.
  - reflexivity.
Defined.

Example legacy_used_before_radio_status :
  last_rst (tdr_diag (deliver 109 (Some 166) wire_radio_status wire_radio
                        TDRRadioPlugin_new
                        (inbound_of 166 [1; 0; 2; 0; 30; 50; 99; 12; 13] 51 68 1)))
  = {| rs_rssi := 30; rs_remrssi := 50; rs_txbuf := 99; rs_noise := 12;
       rs_remnoise := 13; rs_rxerrors := 1; rs_fixed := 2 |}.
Proof. reflexivity. Qed.

(** ** The dBm values *)

Lemma uint8_values_complete (n : Z) : is_uint8 n = true -> In n uint8_values.
Proof.
  unfold is_uint8. intros Hn.
  apply andb_true_iff in Hn. destruct Hn as [Hlo Hhi].
  apply Z.leb_le in Hlo. apply Z.ltb_lt in Hhi.
  unfold uint8_values. apply in_map_iff.
  exists (Z.to_nat n). split; [lia |].
  apply in_seq. lia.
Qed.

Lemma dbm_checked_on_uint8 :
  forallb (fun raw => dbm_accurate raw && dbm_text_exact raw) uint8_values = true.
Proof. vm_compute. reflexivity. Qed.

Lemma dbm_of_raw_accurate (raw : Z) :
  is_uint8 raw = true ->
  (exists v : Q, Spec.SF2Q (dbm_of_raw raw) = Some v
                 /\ (Qabs (v - Spec.dbm_exact raw) <= 1 # 2 ^ 18)%Q)
  /\ CFloat.format_1f (dbm_of_raw raw) = Spec.decimal_1 (Spec.dbm_exact raw).
Proof.
  intros Hraw.
  pose proof (proj1 (forallb_forall _ _) dbm_checked_on_uint8 raw
                (uint8_values_complete raw Hraw)) as Hc.
  apply andb_true_iff in Hc. destruct Hc as [Hacc Htxt].
  split.
  - unfold dbm_accurate in Hacc.
    destruct (Spec.SF2Q (dbm_of_raw raw)) as [v |]; [| discriminate].
    exists v. split; [reflexivity |]. apply Qle_bool_iff, Hacc.
  - apply String.eqb_eq, Htxt.
Qed.

(** The literal [1.9] is the binary64 number nearest to 19/10, and 127 is
    converted without error. *)
Lemma coefficients_exact :
  (exists v : Q, Spec.SF2Q CFloat.lit_1_9 = Some v
                 /\ (Qabs (v - (19 # 10)) <= 1 # 2 ^ 53)%Q)
  /\ (exists v : Q, Spec.SF2Q (CFloat.double_of_int 127) = Some v /\ (v == 127)%Q).
Proof.
  split.
  - eexists. split; [vm_compute; reflexivity |].
    apply Qle_bool_iff. vm_compute. reflexivity.
  - eexists. split; [vm_compute; reflexivity |].
    apply Qeq_bool_iff. vm_compute. reflexivity.
Qed.

(** C4. For a stored sample (its RSSI members are [uint8_t]), the [float]
    that [run] computes for the local RSSI is [(rssi / 1.9) - 127] up to the
    rounding of binary32 (within [2^-18] of the exact rational value), the
    remote one is computed by the same function from [remrssi], and the
    report shows each of them as the exact value written with one decimal
    place. *)
Theorem run_dbm_values (this : TDRRadioStatus) (stat : DiagnosticStatusWrapper) :
  is_uint8 (rs_rssi (last_rst this)) = true ->
  is_uint8 (rs_remrssi (last_rst this)) = true ->
  let report := snd (run this stat) in
  let n := length (values stat) in
  (exists v : Q,
     Spec.SF2Q (dbm_of_raw (rs_rssi (last_rst this))) = Some v
     /\ (Qabs (v - Spec.dbm_exact (rs_rssi (last_rst this))) <= 1 # 2 ^ 18)%Q)
  /\ (exists v : Q,
       Spec.SF2Q (dbm_of_raw (rs_remrssi (last_rst this))) = Some v
       /\ (Qabs (v - Spec.dbm_exact (rs_remrssi (last_rst this))) <= 1 # 2 ^ 18)%Q)
  /\ values report !! (n + 1)%nat
     = Some ("RSSI (dBm)"%string,
             Spec.decimal_1 (Spec.dbm_exact (rs_rssi (last_rst this))))
  /\ values report !! (n + 3)%nat
     = Some ("Remote RSSI (dBm)"%string,
             Spec.decimal_1 (Spec.dbm_exact (rs_remrssi (last_rst this)))).
Proof.
  intros Hl Hr report n. subst report n.
  destruct (dbm_of_raw_accurate _ Hl) as [Hlv Hlt].
  destruct (dbm_of_raw_accurate _ Hr) as [Hrv Hrt].
  split; [exact Hlv |]. split; [exact Hrv |].
  rewrite run_values, <- Hlt, <- Hrt.
  split.
  - rewrite lookup_app_r by lia.
    replace (length (values stat) + 1 - length (values stat))%nat with 1%nat by lia.
    reflexivity.
  - rewrite lookup_app_r by lia.
    replace (length (values stat) + 3 - length (values stat))%nat with 3%nat by lia.
    reflexivity.
Qed.

Lemma run_dbm_values_witness :
  let this := set (TDRRadioStatus_new "3DR Radio" 40) sample_b in
  values (render this) !! 1%nat = Some ("RSSI (dBm)"%string, "-74.4"%string)
  /\ values (render this) !! 3%nat = Some ("Remote RSSI (dBm)"%string, "-21.7"%string).
Proof.
  intros this.
  destruct (run_dbm_values this fresh_status) as (_ & _ & Hl & Hr);
    [reflexivity | reflexivity |].
  split; [exact Hl | exact Hr].
Defined.

(** ** Concurrent callers *)

Module ConcurrentProperties.
Import Concurrent.
Local Open Scope list_scope.

Lemma set_prefix_full (c : tracker_call) (this : TDRRadioStatus) :
  is_set_call c = true -> set_prefix c set_length this = call this c.
Proof.
  destruct this as [name [] received low].
  destruct c as [rst | rst | stat]; intros Hc; [reflexivity | reflexivity | discriminate].
Qed.

Lemma run_prefix_full (this : TDRRadioStatus) (stat : DiagnosticStatusWrapper) :
  l_stat (run_prefix this run_length (enter_run stat)) = snd (run this stat).
Proof. reflexivity. Qed.

Lemma set_prefix_S (c : tracker_call) (pc : nat) (this : TDRRadioStatus) :
  set_prefix c (S pc) this = set_stmt_of c pc (set_prefix c pc this).
Proof. unfold set_prefix. rewrite seq_S, fold_left_app. reflexivity. Qed.

Lemma run_prefix_S (this : TDRRadioStatus) (pc : nat) (l : run_locals) :
  run_prefix this (S pc) l = run_stmt this pc (run_prefix this pc l).
Proof. unfold run_prefix. rewrite seq_S, fold_left_app. reflexivity. Qed.

Lemma replay_app (h1 h2 : list done_event) (t0 : TDRRadioStatus) :
  replay t0 (h1 ++ h2) = replay (replay t0 h1) h2.
Proof. apply fold_left_app. Qed.

Lemma renders_ok_app (h1 h2 : list done_event) (t0 : TDRRadioStatus) :
  renders_ok t0 (h1 ++ h2) <-> renders_ok t0 h1 /\ renders_ok (replay t0 h1) h2.
Proof.
  revert t0. induction h1 as [| e h1 IH]; intros t0; simpl.
  - tauto.
  - destruct e as [tid c | tid stat_in stat_out]; rewrite IH; simpl; tauto.
Qed.

Lemma replay_keeps (h : list done_event) (t0 : TDRRadioStatus) :
  low_rssi (replay t0 h) = low_rssi t0 /\ task_name (replay t0 h) = task_name t0.
Proof.
  revert t0. induction h as [| e h IH]; intros t0; simpl; [tauto |].
  destruct e as [tid c | tid stat_in stat_out]; [| apply IH].
  destruct (IH (call t0 c)) as [-> ->]. apply call_low_rssi.
Qed.

Lemma call_forgets (c : tracker_call) (this other : TDRRadioStatus) :
  is_set_call c = true ->
  task_name this = task_name other -> low_rssi this = low_rssi other ->
  call this c = call other c.
Proof.
  intros Hc Hn Hl. destruct c; [apply set_eq | apply set_eq | discriminate]; assumption.
Qed.

(** The tracker after a history is the initial one, or the one that the last
    completed update wrote. *)
Lemma replay_last (h : list done_event) (t0 : TDRRadioStatus) :
  renders_ok t0 h ->
  (no_update h = true /\ replay t0 h = t0)
  \/ (exists ha tid c hb,
        h = ha ++ UpdateDone tid c :: hb /\ no_update hb = true
        /\ is_set_call c = true /\ replay t0 h = call t0 c).
Proof.
  induction h as [| e h IH] using rev_ind; intros Hok.
  - left. split; reflexivity.
  - apply renders_ok_app in Hok. destruct Hok as [Hh He].
    rewrite replay_app.
    destruct e as [tid c | tid stat_in stat_out]; simpl in He |- *.
    + right. exists h, tid, c, []. destruct He as [Hc _].
      repeat split; [exact Hc |].
      destruct (replay_keeps h t0) as [Hl Hn].
      apply call_forgets; assumption.
    + destruct (IH Hh) as [[Hno Hr] | (ha & tid' & c & hb & -> & Hno & Hc & Hr)].
      * left. split; [| exact Hr].
        unfold no_update. rewrite forallb_app. fold (no_update h). rewrite Hno.
        reflexivity.
      * right. exists ha, tid', c, (hb ++ [RenderDone tid stat_in stat_out]).
        repeat split; [| | exact Hc | exact Hr].
        -- rewrite <- app_assoc. reflexivity.
        -- unfold no_update. rewrite forallb_app. fold (no_update hb). rewrite Hno.
           reflexivity.
Qed.

Lemma invariant_start (t0 : TDRRadioStatus) (scripts : list (list tracker_call)) :
  invariant t0 (start t0 scripts).
Proof.
  split; [exact I |]. simpl. split; [reflexivity |].
  intros j th Hj.
  apply list_elem_of_lookup_2, list_elem_of_In, in_map_iff in Hj.
  destruct Hj as (script & <- & _). reflexivity.
Qed.

Lemma all_idle_insert (tid : nat) (th : thread) (ths : list thread) :
  others_idle tid ths -> at_frame th = Idle -> all_idle (<[tid := th]> ths).
Proof.
  intros Hothers Hidle j th' Hj.
  destruct (decide (j = tid)) as [-> | Hne].
  - apply list_lookup_insert_Some in Hj.
    destruct Hj as [(_ & <- & _) | (Hne & _)]; [exact Hidle | contradiction].
  - rewrite list_lookup_insert_ne in Hj by congruence.
    eapply Hothers; eassumption.
Qed.

Lemma others_idle_insert (tid : nat) (th : thread) (ths : list thread) :
  others_idle tid ths -> others_idle tid (<[tid := th]> ths).
Proof.
  intros Hothers j th' Hj Hne.
  rewrite list_lookup_insert_ne in Hj by congruence.
  eapply Hothers; eassumption.
Qed.

Lemma all_idle_others (tid : nat) (ths : list thread) :
  all_idle ths -> others_idle tid ths.
Proof. intros Hall j th Hj _. eapply Hall, Hj. Qed.

(** A thread inside [set] or [run] is the owner of the mutex. *)
Lemma busy_thread_owns (t0 : TDRRadioStatus) (cfg : config) (tid : nat) (th : thread) :
  invariant t0 cfg -> threads cfg !! tid = Some th -> at_frame th <> Idle ->
  mutex cfg = Some (tid, 1%nat)
  /\ others_idle tid (threads cfg)
  /\ frame_ok (replay t0 (history cfg)) (obj cfg) (at_frame th).
Proof.
  intros [_ Hst] Hth Hbusy.
  destruct (mutex cfg) as [[o n] |].
  - destruct Hst as (-> & Hothers & th' & Hth' & Hfr).
    destruct (decide (tid = o)) as [-> | Hne].
    + rewrite Hth in Hth'. injection Hth' as <-. repeat split; assumption.
    + exfalso. apply Hbusy. eapply Hothers; eassumption.
  - destruct Hst as [_ Hall]. exfalso. apply Hbusy. eapply Hall, Hth.
Qed.

(** A thread between two calls can take the mutex only when it is free. *)
Lemma idle_thread_locks (t0 : TDRRadioStatus) (cfg : config) (tid : nat) (th : thread)
  (m : recursive_mutex) :
  invariant t0 cfg -> threads cfg !! tid = Some th -> at_frame th = Idle ->
  try_lock tid (mutex cfg) = Some m ->
  mutex cfg = None /\ m = Some (tid, 1%nat).
Proof.
  intros [_ Hst] Hth Hidle Hlock.
  destruct (mutex cfg) as [[o n] |]; simpl in Hlock.
  - destruct (Nat.eqb_spec o tid) as [-> | Hne]; [| discriminate].
    destruct Hst as (_ & _ & th' & Hth' & Hfr).
    rewrite Hth in Hth'. injection Hth' as <-.
    rewrite Hidle in Hfr. contradiction.
  - injection Hlock as <-. split; reflexivity.
Qed.

Lemma unlock_owner (tid : nat) : unlock tid (Some (tid, 1%nat)) = None.
Proof. unfold unlock. rewrite Nat.eqb_refl. reflexivity. Qed.

Lemma invariant_step (t0 : TDRRadioStatus) (cfg : config) (tid : nat) :
  invariant t0 cfg -> invariant t0 (step cfg tid).
Proof.
  intros Hinv. unfold step.
  destruct (threads cfg !! tid) as [th |] eqn:Hth; [| exact Hinv].
  pose proof (lookup_lt_Some _ _ _ Hth) as Hlt.
  destruct (at_frame th) as [| c pc | stat_in pc l] eqn:Hfr.
  - (* the thread enters its next call *)
    destruct (todo th) as [| c rest]; [exact Hinv |].
    destruct (try_lock tid (mutex cfg)) as [m |] eqn:Hlock; [| exact Hinv].
    destruct (idle_thread_locks _ _ _ _ _ Hinv Hth Hfr Hlock) as [Hfree ->].
    destruct Hinv as [Hhist Hst]. rewrite Hfree in Hst. destruct Hst as [Hobj Hall].
    split; [exact Hhist |]. cbn [mutex threads obj history].
    split; [reflexivity |].
    split; [apply others_idle_insert, all_idle_others, Hall |].
    eexists. split; [apply list_lookup_insert_eq, Hlt |].
    cbn [at_frame]. destruct c as [rst | rst | stat]; simpl.
    + repeat split; [unfold set_length; lia | exact Hobj].
    + repeat split; [unfold set_length; lia | exact Hobj].
    + repeat split; [unfold run_length; lia | exact Hobj].
  - (* inside set *)
    destruct (busy_thread_owns _ _ _ _ Hinv Hth) as (Hm & Hothers & Hok);
      [rewrite Hfr; discriminate |].
    rewrite Hfr in Hok. destruct Hok as (Hc & Hpc & Hobj).
    destruct Hinv as [Hhist _].
    destruct (Nat.ltb_spec pc set_length) as [Hless | Hlast].
    + split; [exact Hhist |]. cbn [mutex threads obj history]. rewrite Hm.
      split; [reflexivity |].
      split; [apply others_idle_insert, Hothers |].
      eexists. split; [apply list_lookup_insert_eq, Hlt |].
      cbn [at_frame frame_ok]. repeat split; [exact Hc | lia |].
      rewrite set_prefix_S, Hobj. reflexivity.
    + assert (pc = set_length) as -> by lia.
      rewrite set_prefix_full in Hobj by exact Hc.
      split; cbn [mutex threads obj history].
      * apply renders_ok_app. split; [exact Hhist |]. simpl. tauto.
      * rewrite Hm, unlock_owner, replay_app. simpl.
        split; [exact Hobj |]. apply all_idle_insert; [exact Hothers | reflexivity].
  - (* inside run *)
    destruct (busy_thread_owns _ _ _ _ Hinv Hth) as (Hm & Hothers & Hok);
      [rewrite Hfr; discriminate |].
    rewrite Hfr in Hok. destruct Hok as (Hpc & Hobj & Hl).
    destruct Hinv as [Hhist _].
    destruct (Nat.ltb_spec pc run_length) as [Hless | Hlast].
    + split; [exact Hhist |]. cbn [mutex threads obj history]. rewrite Hm.
      split; [reflexivity |].
      split; [apply others_idle_insert, Hothers |].
      eexists. split; [apply list_lookup_insert_eq, Hlt |].
      cbn [at_frame frame_ok]. repeat split; [lia | exact Hobj |].
      rewrite run_prefix_S, Hobj, Hl. reflexivity.
    + assert (pc = run_length) as -> by lia.
      split; cbn [mutex threads obj history].
      * apply renders_ok_app. split; [exact Hhist |]. simpl.
        split; [| exact I]. rewrite Hl. apply run_prefix_full.
      * rewrite Hm, unlock_owner, replay_app. simpl.
        split; [exact Hobj |]. apply all_idle_insert; [exact Hothers | reflexivity].
Qed.

Lemma invariant_exec (t0 : TDRRadioStatus) (schedule : list nat) (cfg : config) :
  invariant t0 cfg -> invariant t0 (exec cfg schedule).
Proof.
  revert cfg. induction schedule as [| tid schedule IH]; intros cfg Hinv; [exact Hinv |].
  apply IH, invariant_step, Hinv.
Qed.

(** In every interleaving, a report is the one [run] gives on the tracker
    as the updates completed before it left it. *)
Lemma render_linearizable (t0 : TDRRadioStatus) (scripts : list (list tracker_call))
  (schedule : list nat) (h1 h2 : list done_event) (tid : nat)
  (stat_in stat_out : DiagnosticStatusWrapper) :
  history (exec (start t0 scripts) schedule) = h1 ++ RenderDone tid stat_in stat_out :: h2 ->
  renders_ok t0 h1 /\ stat_out = snd (run (replay t0 h1) stat_in).
Proof.
  intros Hh.
  destruct (invariant_exec t0 schedule _ (invariant_start t0 scripts)) as [Hok _].
  rewrite Hh in Hok. apply renders_ok_app in Hok. destruct Hok as [Hh1 Hrest].
  split; [exact Hh1 |]. simpl in Hrest. tauto.
Qed.

(** C9, as the code has it. In every interleaving of the calls of any number
    of threads on a new tracker, the report of a [run] is computed from one
    state of the tracker: the zeroed sample of the constructor when no
    update completed before the [run] took the mutex, and otherwise the
    sample of one update, the last that completed before; it never mixes the
    members of two updates. *)
Theorem render_atomic_snapshot (name : string) (low : Z)
  (scripts : list (list tracker_call)) (schedule : list nat)
  (h1 h2 : list done_event) (tid : nat) (stat_in stat_out : DiagnosticStatusWrapper) :
  let t0 := TDRRadioStatus_new name low in
  history (exec (start t0 scripts) schedule) = h1 ++ RenderDone tid stat_in stat_out :: h2 ->
  (no_update h1 = true /\ stat_out = snd (run t0 stat_in))
  \/ (exists ha tid' c hb,
        h1 = ha ++ UpdateDone tid' c :: hb /\ no_update hb = true
        /\ is_set_call c = true
        /\ stat_out = snd (run (call t0 c) stat_in)).
Proof.
  intros t0 Hh.
  destruct (render_linearizable _ _ _ _ _ _ _ _ Hh) as [Hok ->].
  destruct (replay_last h1 t0 Hok) as [[Hno ->] | (ha & tid' & c & hb & -> & Hno & Hc & ->)].
  - left. split; [exact Hno | reflexivity].
  - right. exists ha, tid', c, hb. repeat split; assumption.
Qed.

Lemma render_atomic_snapshot_witness :
  let t0 := TDRRadioStatus_new "3DR Radio" 40 in
  history (exec (start t0 example_scripts) example_schedule)
  = [UpdateDone 0 (CallSet sample_a)]
    ++ RenderDone 1 fresh_status (render (set t0 sample_a))
    :: [UpdateDone 0 (CallSet sample_b)]
  /\ ((no_update [UpdateDone 0 (CallSet sample_a)] = true
       /\ render (set t0 sample_a) = snd (run t0 fresh_status))
      \/ (exists ha tid' c hb,
            [UpdateDone 0 (CallSet sample_a)] = ha ++ UpdateDone tid' c :: hb
            /\ no_update hb = true /\ is_set_call c = true
            /\ render (set t0 sample_a) = snd (run (call t0 c) fresh_status))).
Proof.
  intros t0.
  assert (Hh : history (exec (start t0 example_scripts) example_schedule)
               = [UpdateDone 0 (CallSet sample_a)]
                 ++ RenderDone 1 fresh_status (render (set t0 sample_a))
                 :: [UpdateDone 0 (CallSet sample_b)]) by reflexivity.
  split; [exact Hh |].
  exact (render_atomic_snapshot "3DR Radio" 40 example_scripts example_schedule
           _ _ _ _ _ Hh).
Defined.

(** C9, as the specification words it: a [run] that no update precedes
    reports the zeroed sample of the constructor, which no update wrote. *)
Lemma render_without_update :
  let t0 := TDRRadioStatus_new "3DR Radio" 40 in
  ~ every_render_reads_an_update t0
      (history (exec (start t0 [[CallRun fresh_status]]) (repeat 0%nat 14))).
Proof.
  intros t0 Hclaim.
  destruct (Hclaim [] 0%nat fresh_status (render t0) [] eq_refl)
    as (ha & tid' & c & hb & Hcontra & _).
  destruct ha; discriminate.
Qed.

End ConcurrentProperties.

(** * Further properties of the plugin *)

(** ** The tracker, one call after another *)

Lemma calls_app (l1 l2 : list tracker_call) (this : TDRRadioStatus) :
  calls this (l1 ++ l2)%list = calls (calls this l1) l2.
Proof. apply fold_left_app. Qed.

Lemma calls_keeps (l : list tracker_call) (this : TDRRadioStatus) :
  low_rssi (calls this l) = low_rssi this /\ task_name (calls this l) = task_name this.
Proof.
  revert this. induction l as [| c l IH]; intros this; [split; reflexivity |].
  unfold calls in *. simpl.
  destruct (IH (call this c)) as [-> ->]. apply call_low_rssi.
Qed.

Lemma calls_only_runs (l : list tracker_call) (this : TDRRadioStatus) :
  forallb (fun c => negb (is_set_call c)) l = true -> calls this l = this.
Proof.
  revert this. induction l as [| c l IH]; intros this Hl; [reflexivity |].
  simpl in Hl. apply andb_true_iff in Hl. destruct Hl as [Hc Hl].
  destruct c as [rst | rst | stat]; try discriminate.
  unfold calls in *. simpl. apply IH, Hl.
Qed.

(** X1. Only the last sample is kept: after any sequence of calls, a [set]
    followed by any number of [run]s leaves the tracker as this [set] alone
    would have left the initial one. *)
Theorem calls_last_set_wins (this : TDRRadioStatus) (before runs : list tracker_call)
  (c : tracker_call) :
  is_set_call c = true ->
  forallb (fun c' => negb (is_set_call c')) runs = true ->
  calls this (before ++ c :: runs)%list = call this c.
Proof.
  intros Hc Hruns.
  rewrite calls_app. unfold calls at 1. simpl.
  fold (calls (call (calls this before) c) runs).
  rewrite calls_only_runs by exact Hruns.
  destruct (calls_keeps before this) as [Hlow Hname].
  destruct c as [rst | rst | stat]; [apply set_eq | apply set_eq | discriminate];
    assumption.
Qed.

Lemma calls_last_set_wins_witness :
  calls (TDRRadioStatus_new "3DR Radio" 40)
        ([CallSet sample_a; CallRun fresh_status] ++ CallSet sample_b
           :: [CallRun fresh_status; CallRun fresh_status])%list
  = set (TDRRadioStatus_new "3DR Radio" 40) sample_b.
Proof.
  apply (calls_last_set_wins (TDRRadioStatus_new "3DR Radio" 40)
           [CallSet sample_a; CallRun fresh_status]
           [CallRun fresh_status; CallRun fresh_status] (CallSet sample_b));
    reflexivity.
Defined.

(** X2. A report made after a [set] never says "No data"; its level is OK
    exactly when neither RSSI of the sample is below the threshold (a value
    equal to the threshold is not low), and WARN otherwise. *)
Theorem report_after_set {msgT} `{RadioFields msgT} (this : TDRRadioStatus) (rst : msgT)
  (stat : DiagnosticStatusWrapper) :
  let report := snd (run (set this rst) stat) in
  message report <> "No data"%string
  /\ (level report = level_OK <->
      low_rssi this <= rssi rst /\ low_rssi this <= remrssi rst)
  /\ (level report = level_WARN <->
      rssi rst < low_rssi this \/ remrssi rst < low_rssi this).
Proof.
  intros report. subst report.
  destruct (run_report (set this rst) stat) as [-> ->].
  unfold run_summary. cbn [set data_received last_rst low_rssi rs_rssi rs_remrssi negb].
  unfold level_OK, level_WARN.
  destruct (Z.ltb_spec (rssi rst) (low_rssi this)) as [Hl | Hl];
    [| destruct (Z.ltb_spec (remrssi rst) (low_rssi this)) as [Hr | Hr]];
    cbn [summary level message]; (split; [discriminate |]); split; split;
    intros Hx; try discriminate; try reflexivity; try lia.
Qed.

(** ** Order and range of the dBm values *)

Lemma table_ordered_spec (lo hi : spec_float) (tbl : list (Z * spec_float)) :
  table_ordered lo hi tbl = true ->
  forall a fa b fb, In (a, fa) tbl -> In (b, fb) tbl -> a < b ->
    float_lt fa fb = true /\ float_le lo fa = true /\ float_le fb hi = true.
Proof.
  unfold table_ordered. intros Hall a fa b fb Ha Hb Hab.
  pose proof (proj1 (forallb_forall _ _) Hall) as Hrow.
  pose proof (Hrow _ Ha) as Hca. pose proof (Hrow _ Hb) as Hcb.
  simpl in Hca, Hcb.
  apply andb_true_iff in Hca. destruct Hca as [Hra Hoa].
  apply andb_true_iff in Hcb. destruct Hcb as [Hrb _].
  apply andb_true_iff in Hra. destruct Hra as [Hra _].
  apply andb_true_iff in Hrb. destruct Hrb as [_ Hrb].
  pose proof (proj1 (forallb_forall _ _) Hoa _ Hb) as Hord. simpl in Hord.
  destruct (Z.ltb_spec a b) as [_ | Hge]; [| lia].
  repeat split; assumption.
Qed.

Lemma dbm_table_complete (raw : Z) :
  is_uint8 raw = true -> In (raw, dbm_of_raw raw) dbm_table.
Proof.
  intros Hraw. unfold dbm_table. apply in_map_iff.
  exists raw. split; [reflexivity | apply uint8_values_complete, Hraw].
Qed.

Lemma dbm_pairs_checked :
  table_ordered (dbm_of_raw 0) (dbm_of_raw 255) dbm_table = true.
Proof. vm_compute. reflexivity. Qed.

(** X3. The conversion to dBm keeps the order of the raw values: of two raw
    [uint8_t] values the larger one has the larger [float], so different raw
    values have different dBm values; and every dBm value lies between the
    one of 0 and the one of 255. *)
Theorem dbm_of_raw_increasing (a b : Z) :
  is_uint8 a = true -> is_uint8 b = true -> a < b ->
  float_lt (dbm_of_raw a) (dbm_of_raw b) = true
  /\ float_le (dbm_of_raw 0) (dbm_of_raw a) = true
  /\ float_le (dbm_of_raw b) (dbm_of_raw 255) = true.
Proof.
  intros Ha Hb Hab.
  exact (table_ordered_spec _ _ _ dbm_pairs_checked a _ b _
           (dbm_table_complete a Ha) (dbm_table_complete b Hb) Hab).
Qed.

Lemma dbm_of_raw_increasing_witness :
  float_lt (dbm_of_raw 39) (dbm_of_raw 40) = true
  /\ float_le (dbm_of_raw 0) (dbm_of_raw 39) = true
  /\ float_le (dbm_of_raw 40) (dbm_of_raw 255) = true.
Proof. apply (dbm_of_raw_increasing 39 40); [reflexivity | reflexivity | lia]. Defined.

(** ** Deliveries to the plugin *)

Lemma last_published_snoc (out : list ros_event) (ev : ros_event) :
  last_published (out ++ [ev])%list
  = match ev with
    | EvPublish m => Some m
    | EvWarnThrottle _ _ _ => last_published out
    end.
Proof. unfold last_published. rewrite fold_left_app. destruct ev; reflexivity. Qed.

Lemma warnings_snoc (out : list ros_event) (ev : ros_event) :
  warnings (out ++ [ev])%list
  = (warnings out ++ if is_warning ev then [ev] else [])%list.
Proof.
  unfold warnings. rewrite List.filter_app. simpl.
  destruct (is_warning ev); reflexivity.
Qed.

(** What [handle_message] leaves behind, whoever the sender is. *)
Lemma handle_message_result {msgT} `{RadioFields msgT}
  (this : TDRRadioPlugin) (rst : msgT) (sysid compid : Z) (now : ros_Time) :
  let after := handle_message this rst sysid compid now in
  tdr_diag after = set (tdr_diag this) rst
  /\ last_published (ros_out after)
     = Some {| header_stamp := now;
               msg_rssi := rssi rst; msg_remrssi := remrssi rst;
               msg_txbuf := txbuf rst; msg_noise := noise rst;
               msg_remnoise := remnoise rst; msg_rxerrors := rxerrors rst;
               msg_fixed := fixed rst |}
  /\ warnings (ros_out after)
     = (warnings (ros_out this) ++
        if from_3dr_modem sysid compid then []
        else [EvWarnThrottle 30 "radio" "RADIO_STATUS not from 3DR modem?"])%list.
Proof.
  unfold handle_message, from_3dr_modem.
  destruct (sysid =? char_3), (compid =? char_D); cbn [negb orb andb];
    cbn [emit tdr_diag has_radio_status ros_out];
    rewrite ?last_published_snoc, ?warnings_snoc; cbn [is_warning];
    rewrite ?warnings_snoc; cbn [is_warning]; rewrite ?app_nil_r;
    repeat split.
Qed.

Section PluginProperties.

Variable MAVLINK_MSG_ID_RADIO_STATUS : Z.
Variable MAVLINK_MSG_ID_RADIO : option Z.
Variable mavlink_msg_radio_status_decode : mavlink_message_t -> mavlink_radio_status_t.
Variable mavlink_msg_radio_decode : mavlink_message_t -> mavlink_radio_t.

Abbreviation rx :=
  (deliver MAVLINK_MSG_ID_RADIO_STATUS MAVLINK_MSG_ID_RADIO
     mavlink_msg_radio_status_decode mavlink_msg_radio_decode).
Abbreviation rx_all :=
  (deliver_all MAVLINK_MSG_ID_RADIO_STATUS MAVLINK_MSG_ID_RADIO
     mavlink_msg_radio_status_decode mavlink_msg_radio_decode).
Abbreviation supported :=
  (get_supported_messages MAVLINK_MSG_ID_RADIO_STATUS MAVLINK_MSG_ID_RADIO).

(** X4. A message whose id is not among [get_supported_messages()] leaves
    the plugin as it is: the [switch] of [message_rx_cb] has no other case. *)
Theorem rx_unsupported_ignored (this : TDRRadioPlugin) (i : inbound) :
  ~ In (msgid (in_msg i)) supported -> rx this i = this.
Proof.
  unfold get_supported_messages, deliver, message_rx_cb. intros Hnot.
  destruct (Z.eqb_spec (msgid (in_msg i)) MAVLINK_MSG_ID_RADIO_STATUS) as [He | _].
  - exfalso. apply Hnot. left. symmetry. exact He.
  - destruct MAVLINK_MSG_ID_RADIO as [id_radio |]; [| reflexivity].
    destruct (Z.eqb_spec (msgid (in_msg i)) id_radio) as [He | _]; [| reflexivity].
    exfalso. apply Hnot. right. left. symmetry. exact He.
Qed.

Lemma rx_flag (this : TDRRadioPlugin) (i : inbound) :
  has_radio_status (rx this i)
  = has_radio_status this || (msgid (in_msg i) =? MAVLINK_MSG_ID_RADIO_STATUS).
Proof.
  unfold deliver, message_rx_cb.
  destruct (msgid (in_msg i) =? MAVLINK_MSG_ID_RADIO_STATUS).
  - rewrite handle_message_has_radio_status. simpl. rewrite orb_true_r. reflexivity.
  - rewrite orb_false_r.
    destruct MAVLINK_MSG_ID_RADIO as [id_radio |]; [| reflexivity].
    destruct (msgid (in_msg i) =? id_radio); [| reflexivity].
    destruct (has_radio_status this) eqn:Hf; [exact Hf |].
    rewrite handle_message_has_radio_status. exact Hf.
Qed.

(** X5. The flag [has_radio_status] is set by RADIO_STATUS messages and by
    nothing else: after any sequence of deliveries it is true exactly when it
    was true before or the sequence has a RADIO_STATUS message. A RADIO
    message never sets it. *)
Theorem has_radio_status_exact (l : list inbound) (this : TDRRadioPlugin) :
  has_radio_status (rx_all this l)
  = has_radio_status this
    || existsb (fun i => msgid (in_msg i) =? MAVLINK_MSG_ID_RADIO_STATUS) l.
Proof.
  revert this. induction l as [| i l IH]; intros this.
  - simpl. rewrite orb_false_r. reflexivity.
  - unfold deliver_all in *. simpl. rewrite IH, rx_flag, orb_assoc. reflexivity.
Qed.

(** X6. Until a RADIO_STATUS message has been seen, a RADIO message is
    handled as a RADIO_STATUS message with the same member values, sender and
    stamp would be: the same tracker and the same events given to the logger
    and the publisher. The two differ in the flag alone, which the RADIO
    message leaves unset. *)
Theorem legacy_handled_like_radio_status
  (this : TDRRadioPlugin) (legacy status : inbound) (id_radio : Z) :
  has_radio_status this = false ->
  MAVLINK_MSG_ID_RADIO = Some id_radio ->
  id_radio <> MAVLINK_MSG_ID_RADIO_STATUS ->
  msgid (in_msg legacy) = id_radio ->
  msgid (in_msg status) = MAVLINK_MSG_ID_RADIO_STATUS ->
  in_sysid legacy = in_sysid status -> in_compid legacy = in_compid status ->
  in_now legacy = in_now status ->
  same_fields (mavlink_msg_radio_decode (in_msg legacy))
              (mavlink_msg_radio_status_decode (in_msg status)) ->
  tdr_diag (rx this legacy) = tdr_diag (rx this status)
  /\ ros_out (rx this legacy) = ros_out (rx this status)
  /\ has_radio_status (rx this legacy) = false
  /\ has_radio_status (rx this status) = true.
Proof.
  intros Hflag Hdef Hne Hlegacy Hstatus Hsys Hcomp Hnow Hsame.
  unfold deliver, message_rx_cb.
  rewrite Hdef, Hlegacy, Hstatus, Hflag, !Z.eqb_refl, Hsys, Hcomp, Hnow.
  destruct (Z.eqb_spec id_radio MAVLINK_MSG_ID_RADIO_STATUS) as [He | _];
    [contradiction |].
  rewrite !handle_message_has_radio_status. cbn [has_radio_status].
  destruct Hsame as (H1 & H2 & H3 & H4 & H5 & H6 & H7).
  unfold handle_message, set.
  cbn [rssi remrssi txbuf noise remnoise rxerrors fixed radio_fields radio_status_fields]
    in *.
  rewrite H1, H2, H3, H4, H5, H6, H7.
  destruct (negb (in_sysid status =? char_3) || negb (in_compid status =? char_D));
    cbn [emit tdr_diag has_radio_status ros_out]; repeat split.
  all: rewrite Hflag; reflexivity.
Qed.

Lemma mirrors_constants (this : TDRRadioPlugin) :
  mirrors this ->
  task_name (tdr_diag this) = "3DR Radio"%string /\ low_rssi (tdr_diag this) = 40.
Proof.
  unfold mirrors. intros ->.
  destruct (last_published (ros_out this)); split; reflexivity.
Qed.

Lemma handle_message_mirrors {msgT} `{RadioFields msgT}
  (this : TDRRadioPlugin) (rst : msgT) (sysid compid : Z) (now : ros_Time) :
  task_name (tdr_diag this) = "3DR Radio"%string -> low_rssi (tdr_diag this) = 40 ->
  mirrors (handle_message this rst sysid compid now).
Proof.
  intros Hname Hlow. unfold mirrors.
  destruct (handle_message_result this rst sysid compid now) as (-> & -> & _).
  unfold set, sample_of_msg. rewrite Hname, Hlow. reflexivity.
Qed.

Lemma rx_mirrors (this : TDRRadioPlugin) (i : inbound) :
  mirrors this -> mirrors (rx this i).
Proof.
  intros Hm. destruct (mirrors_constants this Hm) as [Hname Hlow].
  unfold deliver, message_rx_cb.
  destruct (msgid (in_msg i) =? MAVLINK_MSG_ID_RADIO_STATUS).
  - apply handle_message_mirrors; assumption.
  - destruct MAVLINK_MSG_ID_RADIO as [id_radio |]; [| exact Hm].
    destruct (msgid (in_msg i) =? id_radio); [| exact Hm].
    destruct (has_radio_status this); [exact Hm |].
    apply handle_message_mirrors; assumption.
Qed.

(** X7. The diagnostic task and the topic agree: after any sequence of
    deliveries to a new plugin, the tracker is the newly constructed one as
    long as nothing was published, and afterwards it has received data and
    stores the sample that the last published message carries; its name and
    its threshold 40 never change. *)
Theorem tracker_mirrors_last_published (l : list inbound) :
  let plugin := rx_all TDRRadioPlugin_new l in
  tdr_diag plugin
  = match last_published (ros_out plugin) with
    | None => TDRRadioStatus_new "3DR Radio" 40
    | Some m => {| task_name := "3DR Radio"; last_rst := sample_of_msg m;
                   data_received := true; low_rssi := 40 |}
    end.
Proof.
  intros plugin. subst plugin. fold (mirrors (rx_all TDRRadioPlugin_new l)).
  assert (Hgen : forall this, mirrors this -> mirrors (rx_all this l)).
  { induction l as [| i l IH]; intros this Hm; [exact Hm |].
    unfold deliver_all in *. simpl. apply IH, rx_mirrors, Hm. }
  apply Hgen. reflexivity.
Qed.

Lemma rx_warnings (this : TDRRadioPlugin) (i : inbound) :
  from_expected_modem i = true ->
  warnings (ros_out (rx this i)) = warnings (ros_out this).
Proof.
  unfold from_expected_modem. intros Hfrom.
  unfold deliver, message_rx_cb.
  destruct (msgid (in_msg i) =? MAVLINK_MSG_ID_RADIO_STATUS).
  - match goal with
    | |- context [handle_message ?p ?r ?s ?c ?n] =>
        destruct (handle_message_result p r s c n) as (_ & _ & ->)
    end.
    rewrite Hfrom, app_nil_r. reflexivity.
  - destruct MAVLINK_MSG_ID_RADIO as [id_radio |]; [| reflexivity].
    destruct (msgid (in_msg i) =? id_radio); [| reflexivity].
    destruct (has_radio_status this); [reflexivity |].
    match goal with
    | |- context [handle_message ?p ?r ?s ?c ?n] =>
        destruct (handle_message_result p r s c n) as (_ & _ & ->)
    end.
    rewrite Hfrom, app_nil_r. reflexivity.
Qed.

(** X8. Deliveries from the expected modem (system id ['3'], component id
    ['D']) never make the plugin ask for a warning: the requests to the
    logger after such a sequence are those made before it. *)
Theorem no_warning_from_expected_modem (l : list inbound) (this : TDRRadioPlugin) :
  forallb from_expected_modem l = true ->
  warnings (ros_out (rx_all this l)) = warnings (ros_out this).
Proof.
  revert this. induction l as [| i l IH]; intros this Hl; [reflexivity |].
  simpl in Hl. apply andb_true_iff in Hl. destruct Hl as [Hi Hl].
  unfold deliver_all in *. simpl. rewrite IH by exact Hl.
  apply rx_warnings, Hi.
Qed.

End PluginProperties.

Lemma rx_unsupported_ignored_witness :
  deliver 109 (Some 166) wire_radio_status wire_radio TDRRadioPlugin_new
          (inbound_of 0 [1; 2; 3] 51 68 1)
  = TDRRadioPlugin_new.
Proof.
  apply (rx_unsupported_ignored 109 (Some 166) wire_radio_status wire_radio).
  simpl. intros [H | [H | []]]; discriminate.
Defined.

Lemma legacy_handled_like_radio_status_witness :
  let legacy := inbound_of 166 [1; 0; 2; 0; 30; 50; 99; 12; 13] 1 68 5 in
  let status := inbound_of 109 [1; 0; 2; 0; 30; 50; 99; 12; 13] 1 68 5 in
  let rx := deliver 109 (Some 166) wire_radio_status wire_radio in
  tdr_diag (rx TDRRadioPlugin_new legacy) = tdr_diag (rx TDRRadioPlugin_new status)
  /\ ros_out (rx TDRRadioPlugin_new legacy) = ros_out (rx TDRRadioPlugin_new status)
  /\ has_radio_status (rx TDRRadioPlugin_new legacy) = false
  /\ has_radio_status (rx TDRRadioPlugin_new status) = true.
Proof.
  intros legacy status rx.
  apply (legacy_handled_like_radio_status 109 (Some 166) wire_radio_status wire_radio
           TDRRadioPlugin_new legacy status 166);
    try reflexivity.
  - lia.
  - repeat split.
Defined.

Lemma no_warning_from_expected_modem_witness :
  warnings (ros_out (deliver_all 109 (Some 166) wire_radio_status wire_radio
                       TDRRadioPlugin_new
                       [inbound_of 166 [1; 0; 2; 0; 30; 50; 99; 12; 13] 51 68 1;
                        inbound_of 109 [4; 0; 5; 0; 100; 200; 1; 2; 3] 51 68 2]))
  = [].
Proof.
  apply (no_warning_from_expected_modem 109 (Some 166) wire_radio_status wire_radio
           [inbound_of 166 [1; 0; 2; 0; 30; 50; 99; 12; 13] 51 68 1;
            inbound_of 109 [4; 0; 5; 0; 100; 200; 1; 2; 3] 51 68 2]
           TDRRadioPlugin_new).
  reflexivity.
Defined.

(** ** Executions of concurrent callers *)

Module SchedulingProperties.
Import Concurrent Scheduling ConcurrentProperties.
Local Open Scope list_scope.
Local Open Scope nat_scope.

(** X9. Mutual exclusion: in every interleaving at most one thread is
    inside the body of [set] or [run], and it is the owner of the mutex, held
    once. *)
Theorem critical_sections_exclusive (t0 : TDRRadioStatus)
  (scripts : list (list tracker_call)) (schedule : list nat)
  (i j : nat) (thi thj : thread) :
  let cfg := exec (start t0 scripts) schedule in
  threads cfg !! i = Some thi -> threads cfg !! j = Some thj ->
  busy thi = true -> busy thj = true ->
  i = j /\ mutex cfg = Some (i, 1).
Proof.
  intros cfg Hi Hj Hbi Hbj.
  pose proof (invariant_exec t0 schedule _ (invariant_start t0 scripts)) as Hinv.
  fold cfg in Hinv.
  assert (Hni : at_frame thi <> Idle).
  { unfold busy in Hbi. destruct (at_frame thi); [discriminate | |]; discriminate. }
  assert (Hnj : at_frame thj <> Idle).
  { unfold busy in Hbj. destruct (at_frame thj); [discriminate | |]; discriminate. }
  destruct (busy_thread_owns _ _ _ _ Hinv Hi Hni) as (Hmi & _).
  destruct (busy_thread_owns _ _ _ _ Hinv Hj Hnj) as (Hmj & _).
  split; [congruence | exact Hmi].
Qed.

Lemma critical_sections_exclusive_witness :
  let cfg := exec (start (TDRRadioStatus_new "3DR Radio" 40) example_scripts)
                  [0; 0; 0; 1; 1] in
  mutex cfg = Some (0, 1).
Proof.
  intros cfg.
  refine (proj2 (critical_sections_exclusive (TDRRadioStatus_new "3DR Radio" 40)
                   example_scripts [0; 0; 0; 1; 1] 0 0
                   {| todo := [CallSet sample_b]; at_frame := InSet (CallSet sample_a) 2 |}
                   {| todo := [CallSet sample_b]; at_frame := InSet (CallSet sample_a) 2 |}
                   _ _ _ _)); reflexivity.
Defined.

(** X10. Whenever the mutex is free, the shared tracker is in a state that
    calls one after another produce: the initial one if no update has
    completed, and otherwise the one the last completed update wrote. *)
Theorem free_mutex_consistent (t0 : TDRRadioStatus)
  (scripts : list (list tracker_call)) (schedule : list nat) :
  let cfg := exec (start t0 scripts) schedule in
  mutex cfg = None ->
  (no_update (history cfg) = true /\ obj cfg = t0)
  \/ (exists ha tid c hb,
        history cfg = ha ++ UpdateDone tid c :: hb /\ no_update hb = true
        /\ is_set_call c = true /\ obj cfg = call t0 c).
Proof.
  intros cfg Hfree.
  destruct (invariant_exec t0 schedule _ (invariant_start t0 scripts)) as [Hok Hst].
  fold cfg in Hok, Hst. rewrite Hfree in Hst. destruct Hst as [-> _].
  apply replay_last, Hok.
Qed.

Lemma free_mutex_consistent_witness :
  let t0 := TDRRadioStatus_new "3DR Radio" 40 in
  let cfg := exec (start t0 example_scripts) example_schedule in
  (no_update (history cfg) = true /\ obj cfg = t0)
  \/ (exists ha tid c hb,
        history cfg = ha ++ UpdateDone tid c :: hb /\ no_update hb = true
        /\ is_set_call c = true /\ obj cfg = call t0 c).
Proof.
  intros t0 cfg.
  apply (free_mutex_consistent t0 example_scripts example_schedule). reflexivity.
Defined.

Lemma work_insert (ths : list thread) (tid : nat) (th th' : thread) :
  ths !! tid = Some th ->
  list_sum (map thread_work (<[tid := th']> ths)) + thread_work th
  = list_sum (map thread_work ths) + thread_work th'.
Proof.
  revert tid. induction ths as [| x ths IH]; intros tid Hth; [discriminate |].
  destruct tid as [| tid]; simpl in *.
  - injection Hth as ->. lia.
  - specialize (IH tid Hth). lia.
Qed.

Lemma work_unfinished (ths : list thread) :
  list_sum (map thread_work ths) <> 0 ->
  exists tid th, ths !! tid = Some th /\ thread_work th <> 0.
Proof.
  induction ths as [| x ths IH]; simpl; intros Hw; [contradiction |].
  destruct (Nat.eq_dec (thread_work x) 0) as [Hx | Hx].
  - destruct IH as (tid & th & Hth & Hnz); [lia |].
    exists (S tid), th. split; assumption.
  - exists 0, x. split; [reflexivity | exact Hx].
Qed.

Lemma work_zero (ths : list thread) (tid : nat) (th : thread) :
  list_sum (map thread_work ths) = 0 -> ths !! tid = Some th -> thread_work th = 0.
Proof.
  revert tid. induction ths as [| x ths IH]; intros tid Hw Hth; [discriminate |].
  simpl in Hw. destruct tid as [| tid]; simpl in Hth.
  - injection Hth as ->. lia.
  - apply (IH tid); [lia | exact Hth].
Qed.

Lemma call_cost_pos (c : tracker_call) : call_cost c <> 0.
Proof. destruct c; discriminate. Qed.

(** Closes a goal [work after + 1 = work before] for a step that replaces
    the thread at [Hth] by [th']. *)
Ltac one_unit_of_work Hth th' Hfr :=
  let Hw := fresh "Hw" in
  pose proof (work_insert _ _ _ th' Hth) as Hw;
  match goal with
  | |- ?A + 1 = ?B => set (after := A) in *; set (before := B) in *
  end;
  unfold thread_work in Hw; rewrite ?Hfr in Hw;
  cbn [at_frame todo frame_cost call_cost map] in Hw;
  unfold list_sum in Hw; cbn [fold_right] in Hw;
  unfold set_length, run_length in *; lia.

(** In a configuration with work left, some thread can take a step, and the
    step does one unit of the work: the owner of the mutex if it is held, any
    thread with a call to make if it is free. *)
Lemma progress (t0 : TDRRadioStatus) (cfg : config) :
  invariant t0 cfg -> work cfg <> 0 ->
  exists tid, work (step cfg tid) + 1 = work cfg.
Proof.
  intros Hinv Hwork. pose proof Hinv as [_ Hst].
  destruct (mutex cfg) as [[o n] |] eqn:Hm.
  - (* the owner goes on *)
    destruct Hst as (-> & _ & th & Hth & Hok).
    exists o. unfold step, work. rewrite Hth.
    destruct (at_frame th) as [| c pc | stat_in pc l] eqn:Hfr; [contradiction | |].
    + destruct Hok as (_ & Hpc & _).
      destruct (Nat.ltb_spec pc set_length) as [Hless | Hlast]; cbn [threads].
      * one_unit_of_work Hth {| todo := todo th; at_frame := InSet c (S pc) |} Hfr.
      * one_unit_of_work Hth {| todo := todo th; at_frame := Idle |} Hfr.
    + destruct Hok as (Hpc & _).
      destruct (Nat.ltb_spec pc run_length) as [Hless | Hlast]; cbn [threads].
      * one_unit_of_work Hth
          {| todo := todo th;
             at_frame := InRun stat_in (S pc) (run_stmt (obj cfg) pc l) |} Hfr.
      * one_unit_of_work Hth {| todo := todo th; at_frame := Idle |} Hfr.
  - (* a thread with a call to make takes the mutex *)
    destruct Hst as [_ Hall].
    destruct (work_unfinished _ Hwork) as (tid & th & Hth & Hnz).
    pose proof (Hall _ _ Hth) as Hidle.
    exists tid. unfold step, work. rewrite Hth, Hidle, Hm.
    unfold thread_work in Hnz. rewrite Hidle in Hnz. cbn [frame_cost] in Hnz.
    destruct (todo th) as [| c rest] eqn:Htodo; [simpl in Hnz; lia |].
    cbn [try_lock threads].
    destruct c as [rst | rst | stat];
      match goal with
      | |- context [<[tid := ?th']> _] =>
          pose proof (work_insert _ _ _ th' Hth) as Hw
      end;
      match goal with
      | |- ?A + 1 = ?B => set (after := A) in *; set (before := B) in *
      end;
      unfold thread_work in Hw; rewrite Hidle, Htodo in Hw;
      cbn [at_frame todo frame_cost call_cost map] in Hw;
      unfold list_sum in Hw; cbn [fold_right] in Hw;
      unfold set_length, run_length in *; lia.
Qed.

Lemma exec_app (cfg : config) (s1 s2 : list nat) :
  exec cfg (s1 ++ s2) = exec (exec cfg s1) s2.
Proof. apply fold_left_app. Qed.

Lemma completes (t0 : TDRRadioStatus) (n : nat) (cfg : config) :
  invariant t0 cfg -> work cfg = n ->
  exists schedule, length schedule = n /\ work (exec cfg schedule) = 0.
Proof.
  revert cfg. induction n as [| n IH]; intros cfg Hinv Hw.
  - exists []. split; [reflexivity | exact Hw].
  - destruct (progress t0 cfg Hinv) as [tid Hstep]; [lia |].
    destruct (IH (step cfg tid)) as (schedule & Hlen & Hdone);
      [apply invariant_step, Hinv | lia |].
    exists (tid :: schedule). split; [simpl; lia | exact Hdone].
Qed.

(** With no work left every thread has finished and the mutex is free. *)
Lemma no_work_finished (t0 : TDRRadioStatus) (cfg : config) :
  invariant t0 cfg -> work cfg = 0 ->
  mutex cfg = None
  /\ forall tid th, threads cfg !! tid = Some th -> finished th = true.
Proof.
  intros [_ Hst] Hw.
  assert (Hidle : forall tid th, threads cfg !! tid = Some th ->
                    frame_ok (replay t0 (history cfg)) (obj cfg) (at_frame th) -> False).
  { intros tid th Hth Hok. pose proof (work_zero _ _ _ Hw Hth) as Hz.
    unfold thread_work in Hz.
    destruct (at_frame th) as [| c pc | stat_in pc l]; [exact Hok | |];
      cbn [frame_cost] in Hz.
    - destruct Hok as (_ & Hpc & _). unfold set_length in *. lia.
    - destruct Hok as (Hpc & _). unfold run_length in *. lia. }
  destruct (mutex cfg) as [[o n] |].
  - destruct Hst as (_ & _ & th & Hth & Hok). exfalso. eapply Hidle; eassumption.
  - split; [reflexivity |]. destruct Hst as [_ Hall].
    intros tid th Hth. pose proof (work_zero _ _ _ Hw Hth) as Hz.
    unfold finished, busy, thread_work in *. rewrite (Hall _ _ Hth) in *.
    destruct (todo th) as [| c rest]; [reflexivity |].
    simpl in Hz. pose proof (call_cost_pos c). lia.
Qed.

Lemma done_by_snoc (tid : nat) (h : list done_event) (e : done_event) :
  done_by tid (h ++ [e])
  = done_by tid h ++ (if Nat.eqb (event_tid e) tid then [event_call e] else []).
Proof.
  unfold done_by. rewrite List.filter_app, map_app. simpl.
  destruct (Nat.eqb (event_tid e) tid); reflexivity.
Qed.

Lemma accounted_start (t0 : TDRRadioStatus) (scripts : list (list tracker_call)) :
  accounted scripts (start t0 scripts).
Proof.
  intros tid script Hs. simpl.
  exists {| todo := script; at_frame := Idle |}. split; [| reflexivity].
  revert tid Hs. induction scripts as [| x scripts IH]; intros tid Hs; [discriminate |].
  destruct tid as [| tid]; simpl in *.
  - injection Hs as ->. reflexivity.
  - apply IH, Hs.
Qed.

(** A step of one thread changes the account of this thread alone. *)
Lemma accounted_update (scripts : list (list tracker_call)) (cfg : config)
  (tid : nat) (th th' : thread) (o : TDRRadioStatus) (m : recursive_mutex)
  (ev : list done_event) (h' : list done_event) :
  accounted scripts cfg ->
  threads cfg !! tid = Some th ->
  h' = history cfg ++ ev ->
  (forall e, In e ev -> event_tid e = tid) ->
  done_by tid h' ++ inflight (at_frame th') ++ todo th'
  = done_by tid (history cfg) ++ inflight (at_frame th) ++ todo th ->
  accounted scripts
    {| obj := o; mutex := m; threads := <[tid := th']> (threads cfg); history := h' |}.
Proof.
  intros Hacc Hth -> Hev Hsame j script Hs. cbn [threads history].
  destruct (Hacc j script Hs) as (thj & Hthj & Hscript).
  destruct (decide (j = tid)) as [-> | Hne].
  - exists th'. split.
    + apply list_lookup_insert_eq. eapply lookup_lt_Some, Hth.
    + rewrite Hsame, Hscript. congruence.
  - exists thj. split.
    + rewrite list_lookup_insert_ne by congruence. exact Hthj.
    + rewrite Hscript. f_equal.
      unfold done_by. rewrite List.filter_app.
      assert (Hnone : List.filter (fun e => Nat.eqb (event_tid e) j) ev = []).
      { clear -Hev Hne. induction ev as [| e ev IH]; [reflexivity |].
        simpl. rewrite (Hev e (or_introl eq_refl)).
        destruct (Nat.eqb_spec tid j) as [He | _]; [congruence |].
        apply IH. intros e' He'. apply Hev. right. exact He'. }
      rewrite Hnone, app_nil_r. reflexivity.
Qed.

Lemma accounted_step (scripts : list (list tracker_call)) (cfg : config) (tid : nat) :
  accounted scripts cfg -> accounted scripts (step cfg tid).
Proof.
  intros Hacc. unfold step.
  destruct (threads cfg !! tid) as [th |] eqn:Hth; [| exact Hacc].
  destruct (at_frame th) as [| c pc | stat_in pc l] eqn:Hfr.
  - destruct (todo th) as [| c rest] eqn:Htodo; [exact Hacc |].
    destruct (try_lock tid (mutex cfg)) as [m |]; [| exact Hacc].
    apply (accounted_update scripts cfg tid th _ _ _ []); try assumption.
    + symmetry. apply app_nil_r.
    + intros e [].
    + rewrite Hfr, Htodo. cbn [at_frame todo]. destruct c; reflexivity.
  - destruct (pc <? set_length).
    + apply (accounted_update scripts cfg tid th _ _ _ []); try assumption.
      * symmetry. apply app_nil_r.
      * intros e [].
      * rewrite Hfr. reflexivity.
    + apply (accounted_update scripts cfg tid th _ _ _ [UpdateDone tid c]);
        try assumption.
      * reflexivity.
      * intros e [<- | []]. reflexivity.
      * rewrite done_by_snoc, Hfr. cbn [event_tid event_call at_frame todo inflight].
        rewrite Nat.eqb_refl, <- app_assoc. reflexivity.
  - destruct (pc <? run_length).
    + apply (accounted_update scripts cfg tid th _ _ _ []); try assumption.
      * symmetry. apply app_nil_r.
      * intros e [].
      * rewrite Hfr. reflexivity.
    + apply (accounted_update scripts cfg tid th _ _ _
               [RenderDone tid stat_in (l_stat l)]); try assumption.
      * reflexivity.
      * intros e [<- | []]. reflexivity.
      * rewrite done_by_snoc, Hfr. cbn [event_tid event_call at_frame todo inflight].
        rewrite Nat.eqb_refl, <- app_assoc. reflexivity.
Qed.

Lemma accounted_exec (scripts : list (list tracker_call)) (schedule : list nat)
  (cfg : config) :
  accounted scripts cfg -> accounted scripts (exec cfg schedule).
Proof.
  revert cfg. induction schedule as [| tid schedule IH]; intros cfg Hacc; [exact Hacc |].
  apply IH, accounted_step, Hacc.
Qed.

(** X11. No deadlock: from every configuration that an interleaving reaches,
    the calls can be brought to an end. Some schedule, with as many steps as
    there is work left, leads to a configuration in which the mutex is free,
    every thread has returned from its last call, and the calls each thread
    has returned from are its script. *)
Theorem every_execution_completes (t0 : TDRRadioStatus)
  (scripts : list (list tracker_call)) (so_far : list nat) :
  exists rest : list nat,
    let cfg := exec (start t0 scripts) (so_far ++ rest) in
    length rest = work (exec (start t0 scripts) so_far)
    /\ mutex cfg = None
    /\ (forall tid th, threads cfg !! tid = Some th -> finished th = true)
    /\ (forall tid script, scripts !! tid = Some script ->
          done_by tid (history cfg) = script).
Proof.
  pose proof (invariant_exec t0 so_far _ (invariant_start t0 scripts)) as Hinv.
  destruct (completes t0 _ _ Hinv eq_refl) as (rest & Hlen & Hdone).
  exists rest. cbv zeta. rewrite exec_app.
  split; [exact Hlen |].
  destruct (no_work_finished t0 (exec (exec (start t0 scripts) so_far) rest))
    as [Hfree Hfin]; [apply invariant_exec, Hinv | exact Hdone |].
  split; [exact Hfree |]. split; [exact Hfin |].
  intros tid script Hs.
  destruct (accounted_exec scripts (so_far ++ rest) _ (accounted_start t0 scripts)
              tid script Hs) as (th & Hth & ->).
  rewrite exec_app in Hth |- *.
  specialize (Hfin tid th Hth). unfold finished, busy in Hfin.
  destruct (at_frame th); [| discriminate | discriminate].
  destruct (todo th); [| discriminate].
  simpl. rewrite app_nil_r. reflexivity.
Qed.

Lemma set_prefix_keeps (c : tracker_call) (pc : nat) (this : TDRRadioStatus) :
  low_rssi (set_prefix c pc this) = low_rssi this
  /\ task_name (set_prefix c pc this) = task_name this
  /\ (data_received this = true -> data_received (set_prefix c pc this) = true).
Proof.
  induction pc as [| pc IH]; [repeat split; trivial |].
  rewrite set_prefix_S. destruct IH as (Hl & Hn & Hd).
  rewrite <- Hl, <- Hn.
  destruct c as [rst | rst | stat];
    [| | repeat split; intros; simpl; auto];
    destruct pc as [| [| [| [| [| [| [| [| pc]]]]]]]];
    repeat split; intros; simpl; auto.
Qed.

Lemma replay_data_received (h : list done_event) (t0 : TDRRadioStatus) :
  renders_ok t0 h -> no_update h = false -> data_received (replay t0 h) = true.
Proof.
  intros Hok Hno.
  destruct (replay_last h t0 Hok) as [[Habs _] | (ha & tid & c & hb & _ & _ & Hc & ->)].
  - congruence.
  - rewrite call_data_received, Hc. reflexivity.
Qed.

(** X13. In every configuration of every interleaving, also while another
    thread is inside [set], the threshold and the name of the shared tracker
    are those it was constructed with, and [data_received] is true as soon as
    one update has completed. *)
Theorem shared_tracker_constants (t0 : TDRRadioStatus)
  (scripts : list (list tracker_call)) (schedule : list nat) :
  let cfg := exec (start t0 scripts) schedule in
  low_rssi (obj cfg) = low_rssi t0
  /\ task_name (obj cfg) = task_name t0
  /\ (no_update (history cfg) = false -> data_received (obj cfg) = true).
Proof.
  intros cfg.
  destruct (invariant_exec t0 schedule _ (invariant_start t0 scripts)) as [Hok Hst].
  fold cfg in Hok, Hst.
  destruct (replay_keeps (history cfg) t0) as [Hlow Hname].
  pose proof (replay_data_received (history cfg) t0 Hok) as Hdata.
  destruct (mutex cfg) as [[o n] |].
  - destruct Hst as (_ & _ & th & _ & Hfr).
    destruct (at_frame th) as [| c pc | stat_in pc l]; [contradiction | |].
    + destruct Hfr as (_ & _ & ->).
      destruct (set_prefix_keeps c pc (replay t0 (history cfg))) as (-> & -> & Hd).
      repeat split; [exact Hlow | exact Hname |]. intros Hno. apply Hd, Hdata, Hno.
    + destruct Hfr as (_ & -> & _). repeat split; assumption.
  - destruct Hst as [-> _]. repeat split; assumption.
Qed.

Lemma shared_tracker_constants_witness :
  let cfg := exec (start (TDRRadioStatus_new "3DR Radio" 40) example_scripts)
                  [0; 0; 0; 0; 0; 0; 0; 0; 0; 0; 0; 0; 0] in
  data_received (obj cfg) = true /\ low_rssi (obj cfg) = 40%Z.
Proof.
  intros cfg.
  destruct (shared_tracker_constants (TDRRadioStatus_new "3DR Radio" 40) example_scripts
              [0; 0; 0; 0; 0; 0; 0; 0; 0; 0; 0; 0; 0]) as (Hlow & _ & Hdata).
  split; [apply Hdata; reflexivity | exact Hlow].
Defined.

Lemma every_execution_completes_witness :
  let t0 := TDRRadioStatus_new "3DR Radio" 40 in
  exists rest : list nat,
    length rest = 31
    /\ mutex (exec (start t0 example_scripts) ([0; 0; 0; 1] ++ rest)) = None
    /\ done_by 0 (history (exec (start t0 example_scripts) ([0; 0; 0; 1] ++ rest)))
       = [CallSet sample_a; CallSet sample_b].
Proof.
  intros t0.
  destruct (every_execution_completes t0 example_scripts [0; 0; 0; 1])
    as (rest & Hlen & Hfree & _ & Hdone).
  exists rest. split; [exact Hlen |]. split; [exact Hfree |].
  apply Hdone. reflexivity.
Defined.

End SchedulingProperties.
